(** * mood-to-product: relevance ranking, playlist selection and feedback log

    A shallow embedding of the decision logic of the repository:
    - [src/recommender.py]  ([Module Recommender]): the product catalog and
      [get_recommendations], the Jaccard ranking of products for an emotion;
    - [src/utils.py] ([Module Utils]): [validate_product_data], [log_feedback]
      and [export_feedback_summary];
    - [src/integrations/spotify_utils.py] ([Module Spotify]): the playlist
      search with its duplicate and quality filter.

    Conventions of the model.
    - A Python [str] is the Rocq string of its UTF-8 bytes; [len] counts code
      points. [PyStr.lower] and [PyStr.strip] are [str.lower] and [str.strip]
      on ASCII text; where text from outside reaches them (playlist names,
      moods) the adapter takes Python's own functions ([PyUnicode]).
    - Python floats are exact rationals ([Q]); the scores compared here are
      quotients of small integers, so rounding does not decide any result.
    - A pandas DataFrame is the list of its rows. data/feedback.csv is the
      list of the rows written to it; [read_csv] turns the texts that pandas
      takes for a missing value into NaN.
    - A call that may raise returns an [outcome].
    - The random generator of numpy and the wall clock are inputs. *)

From Stdlib Require Import Ascii String QArith Qminmax Lqa.
From stdpp Require Import gmap strings list sorting fin_maps.

Set Warnings "-clear-no-such-hyp".

Local Open Scope string_scope.
Local Open Scope list_scope.
Local Open Scope nat_scope.
Local Open Scope stdpp_scope.

(** ** Python string methods *)

Module PyStr.

(** [c.lower()] for one character: [A-Z] moves to [a-z]. *)
Definition lower_ascii (c : ascii) : ascii :=
  let n := nat_of_ascii c in
  if (65 <=? n) && (n <=? 90) then ascii_of_nat (n + 32) else c.

(** [s.lower()] *)
Fixpoint lower (s : string) : string :=
  match s with
  | EmptyString => EmptyString
  | String c r => String (lower_ascii c) (lower r)
  end.

(** The characters [str.strip()] removes: tab, line feed, vertical tab,
    form feed, carriage return, the four separators 28-31 and space. *)
Definition is_space (c : ascii) : bool :=
  let n := nat_of_ascii c in
  ((9 <=? n) && (n <=? 13)) || ((28 <=? n) && (n <=? 31)) || (n =? 32).

Fixpoint lstrip (s : string) : string :=
  match s with
  | EmptyString => EmptyString
  | String c r => if is_space c then lstrip r else s
  end.

Fixpoint rstrip (s : string) : string :=
  match s with
  | EmptyString => EmptyString
  | String c r =>
      match rstrip r with
      | EmptyString => if is_space c then EmptyString else String c EmptyString
      | r' => String c r'
      end
  end.

(** [s.strip()] *)
Definition strip (s : string) : string := rstrip (lstrip s).

(** [s.split(sep)] for a one-character separator: never the empty list. *)
Fixpoint split (sep : ascii) (s : string) : list string :=
  match s with
  | EmptyString => [EmptyString]
  | String c r =>
      if decide (c = sep) then EmptyString :: split sep r
      else match split sep r with
           | h :: t => String c h :: t
           | [] => [String c EmptyString]
           end
  end.

(** [len(s)]: the number of code points. In UTF-8 every byte starts a code
    point but the continuation bytes 0x80-0xBF. *)
Definition is_continuation (c : ascii) : bool :=
  let n := nat_of_ascii c in
  (128 <=? n) && (n <=? 191).

Fixpoint len (s : string) : nat :=
  match s with
  | EmptyString => 0
  | String c r => if is_continuation c then len r else S (len r)
  end.

(** [s.isascii()] *)
Fixpoint isascii (s : string) : bool :=
  match s with
  | EmptyString => true
  | String c r => (nat_of_ascii c <? 128) && isascii r
  end.

End PyStr.

(** ** Python's Unicode tables

    [str.lower] and [str.strip] follow the Unicode character database of the
    interpreter: [lower] maps every cased code point (and expands some), and
    [strip] removes every code point that [str.isspace] accepts. The playlist
    adapter takes the two functions as they are; what is used of them is
    their value on ASCII text. *)
Class PyUnicode := mkPyUnicode {
  str_lower : string -> string;
  str_strip : string -> string;
  str_lower_ascii s : PyStr.isascii s = true -> str_lower s = PyStr.lower s;
  str_strip_ascii s : PyStr.isascii s = true -> str_strip s = PyStr.strip s
}.

(** ** The outcome of a call: the value returned, or the exception raised *)

Inductive outcome (A : Type) :=
| Returned (a : A)
| Raised (exception : string).

Arguments Returned {A} a.
Arguments Raised {A} exception.

(** ** numpy's random generator, as the draws it hands out *)

Record RandomState := mkRandomState {
  (** the value of the [i]-th call of [np.random.uniform(-0.1, 0.1)] *)
  uniform : nat -> Q;
  (** the integers that drive [DataFrame.sample] *)
  choice : list nat
}.

(** [np.random.uniform(-0.1, 0.1)] draws from the half-open interval. *)
Definition uniform_in_range (rs : RandomState) : Prop :=
  forall i, (- (1 # 10) <= uniform rs i)%Q /\ (uniform rs i < 1 # 10)%Q.

(** ** src/recommender.py *)

Module Recommender.

(** A row of [products_df], and the [product_data] dict [add_product]
    receives, over the catalog columns. A cell holds a value of the type of
    its column; [None] is a cell that is missing (a key absent from the
    dict), which pandas stores as NaN. *)
Record product := mkProduct {
  product_id : option Z;
  name : option string;
  price : option Q;
  image_url : option string;
  mood_tags : option string
}.

Definition DataFrame := list product.

(** [_create_emotion_mapping] *)
Definition emotion_mapping : gmap string (list string) :=
  list_to_map
    [ ("happy", ["entertainment"; "social"; "celebration"; "joy"; "fun"; "colorful"]);
      ("sad", ["comfort"; "cozy"; "self-care"; "healing"; "soft"; "warm"]);
      ("angry", ["stress-relief"; "physical"; "intense"; "powerful"; "bold"]);
      ("surprise", ["unique"; "innovative"; "exciting"; "novel"; "creative"]);
      ("fear", ["safety"; "security"; "protective"; "calming"; "reassuring"]);
      ("disgust", ["cleansing"; "fresh"; "pure"; "minimal"; "detox"]);
      ("neutral", ["practical"; "everyday"; "basic"; "functional"; "versatile"]) ].

(** [str(product['mood_tags'])]: a missing cell is NaN and prints as "nan". *)
Definition str_mood_tags (p : product) : string :=
  match mood_tags p with
  | Some s => s
  | None => "nan"
  end.

(** [[tag.strip() for tag in str(product['mood_tags']).lower().split(',')]] *)
Definition product_tags (p : product) : list string :=
  PyStr.strip <$> PyStr.split "," (PyStr.lower (str_mood_tags p)).

Definition tag_set (l : list string) : gset string := list_to_set l.

(** [len(intersection) / len(set(emotion_tags) | set(product_tags))],
    before the perturbation is added. *)
Definition jaccard (emotion_tags : list string) (p : product) : Q :=
  let intersection := tag_set emotion_tags ∩ tag_set (product_tags p) in
  let union := tag_set emotion_tags ∪ tag_set (product_tags p) in
  (inject_Z (Z.of_nat (size intersection)) / inject_Z (Z.of_nat (size union)))%Q.

(** The [scores] list of the loop over [iterrows()]: row [i] gets its
    Jaccard score plus the [i]-th uniform draw ([i] counts from [start]). *)
Fixpoint scores (rs : RandomState) (emotion_tags : list string)
    (start : nat) (df : DataFrame) : list Q :=
  match df with
  | [] => []
  | p :: rest =>
      (jaccard emotion_tags p + uniform rs start)%Q
        :: scores rs emotion_tags (S start) rest
  end.

(** [products_with_scores]: the frame with the column [relevance_score]. *)
Abbreviation scored_row := (Q * product)%type.

Definition products_with_scores (rs : RandomState) (emotion_tags : list string)
    (df : DataFrame) : list scored_row :=
  zip (scores rs emotion_tags 0 df) df.

(** The order of [sort_values('relevance_score', ascending=False)]. *)
Definition score_ge (a b : scored_row) : Prop := Qle_bool b.1 a.1 = true.

#[global] Instance score_ge_dec : RelDecision score_ge.
Proof. intros a b. unfold score_ge. apply _. Defined.

(** [sort_values]: pandas leaves the order of rows with equal keys to the
    sorting routine; the properties proved below use only that the result
    is a descending rearrangement of the rows. *)
Definition sort_values (l : list scored_row) : list scored_row :=
  merge_sort score_ge l.

(** [.head(n)] for a count [n]. *)
Definition head {A} (n : nat) (l : list A) : list A := take n l.

(** [.drop('relevance_score', axis=1)] *)
Definition drop_score (l : list scored_row) : DataFrame := snd <$> l.

(** [DataFrame.sample(n=k)]: [k] rows drawn without replacement, here
    as directed by the draws: each draw picks one of the remaining rows. *)
Fixpoint sample {A} (draws : list nat) (k : nat) (rows : list A) : list A :=
  match k with
  | 0 => []
  | S k' =>
      let i := (hd 0 draws) mod (length rows) in
      match rows !! i with
      | None => []
      | Some r => r :: sample (tl draws) k' (delete i rows)
      end
  end.

(** [get_recommendations(emotion, n_recommendations)], with
    [self.products_df] as an argument: [None] when no frame was loaded. The
    empty frame returned is []; [n_recommendations] is a count. *)
Definition get_recommendations (rs : RandomState) (products_df : option DataFrame)
    (emotion : string) (n_recommendations : nat) : DataFrame :=
  match products_df with
  | None => []
  | Some [] => []
  | Some df =>
      let emotion := PyStr.lower emotion in
      match emotion_mapping !! emotion with
      | None => sample (choice rs) (min n_recommendations (length df)) df
      | Some emotion_tags =>
          drop_score
            (head n_recommendations
               (sort_values (products_with_scores rs emotion_tags df)))
      end
  end.

(** The two rows [_create_sample_products] spells out. *)
Definition headphones : product :=
  {| product_id := Some 1%Z;
     name := Some "Wireless Bluetooth Headphones";
     price := Some (9999 # 100)%Q;
     image_url := Some "https://images.unsplash.com/photo-1505740420928-5e560c06d30e?w=300";
     mood_tags := Some "entertainment, music, joy, fun" |}.

Definition oil_set : product :=
  {| product_id := Some 2%Z;
     name := Some "Aromatherapy Essential Oil Set";
     price := Some (4550 # 100)%Q;
     image_url := Some "https://images.unsplash.com/photo-1544947950-fa07a98d237f?w=300";
     mood_tags := Some "comfort, relaxation, healing, calming" |}.

Definition sample_products : DataFrame := [headphones; oil_set].

(** The recommender object: the frame in memory and the CSV file at
    [products_csv_path] ([None]: no such file). *)
Record ProductRecommender := mkRecommender {
  products_df : option DataFrame;
  products_csv : option DataFrame
}.

(** [add_product(product_data)] *)
Definition add_product (self : ProductRecommender) (product_data : product)
    : ProductRecommender :=
  let df := match products_df self with None => [] | Some df => df end in
  let df := df ++ [product_data] in
  {| products_df := Some df; products_csv := Some df |}.





(** [get_product_by_id(product_id)] *)
Definition get_product_by_id (self : ProductRecommender) (id : Z) : option product :=
  match products_df self with
  | None => None
  | Some df => List.find (fun p => bool_decide (product_id p = Some id)) df
  end.

End Recommender.

(** ** src/utils.py *)

Module Utils.

(** *** validate_product_data *)




Section Validate.

(** Whether [float(s)] and [int(s)] accept the text [s] (they raise
    ValueError otherwise): the parsers of the Python builtins. *)
Variable float_accepts : string -> bool.
Variable int_accepts : string -> bool.






End Validate.


(** *** The feedback log *)

(** The wall clock at a call: the ISO-8601 text of the local time, which
    is what [datetime.now().isoformat()] returns, and the ISO-8601 text of
    the same instant in UTC, which the code never asks for. *)
Record Clock := mkClock {
  local_iso : string;
  utc_iso : string
}.

(** [datetime.now().isoformat()] *)
Definition datetime_now_isoformat (clock : Clock) : string := local_iso clock.

(** A row of data/feedback.csv, and the [new_feedback] dict. The two text
    columns hold the text of the field as written. *)
Record feedback := mkFeedback {
  timestamp : string;
  detected_emotion : string;
  confidence : Q;
  rating : Z;
  feedback_text : string;
  num_recommendations : Z
}.

(** What is on disk at data/feedback.csv: no directory data/, the directory
    without the file, or the file with its rows (no rows: the header alone,
    or an empty file). *)
Inductive feedback_csv :=
| NoDirectory
| NoFile
| File (rows : list feedback).

Definition rows (file : feedback_csv) : list feedback :=
  match file with
  | File df => df
  | NoDirectory | NoFile => []
  end.

(** [create_feedback_csv()]: [os.makedirs('data', exist_ok=True)], then the
    header when there is no file. *)
Definition create_feedback_csv (file : feedback_csv) : feedback_csv :=
  match file with
  | NoDirectory | NoFile => File []
  | File df => File df
  end.

(** The field texts [pd.read_csv] reads as a missing value: its default
    [na_values], the empty field among them. *)
Definition na_values : list string :=
  [ ""; "#N/A"; "#N/A N/A"; "#NA"; "-1.#IND"; "-1.#QNAN"; "-NaN"; "-nan";
    "1.#IND"; "1.#QNAN"; "<NA>"; "N/A"; "NA"; "NULL"; "NaN"; "None"; "n/a";
    "nan"; "null" ].

Definition is_na (field : string) : bool := bool_decide (field ∈ na_values).

(** A text cell of a frame that [read_csv] returns. NaN is held as the
    empty text, which is what [to_csv] writes for it; [read_csv] returns no
    cell with the empty text itself. *)
Definition read_cell (field : string) : string :=
  if is_na field then "" else field.

(** [pd.read_csv(feedback_path)] on the rows of the file. *)
Definition read_csv (df : list feedback) : list feedback :=
  (λ r, {| timestamp := timestamp r;
           detected_emotion := read_cell (detected_emotion r);
           confidence := confidence r; rating := rating r;
           feedback_text := read_cell (feedback_text r);
           num_recommendations := num_recommendations r |}) <$> df.

(** [Series.dropna()] on a text column of a frame read from the file. *)
Definition dropna (column : list string) : list string :=
  filter (λ cell, cell ≠ "") column.

(** [log_feedback(emotion, confidence, rating, feedback_text,
    num_recommendations)]: the file written back. A missing or empty file
    reads as the frame without rows; [to_csv] raises OSError when the
    directory data/ does not exist. *)
Definition log_feedback (clock : Clock) (emotion : string) (confidence : Q)
    (rating : Z) (feedback_text : string) (num_recommendations : Z)
    (file : feedback_csv) : outcome feedback_csv :=
  let new_feedback :=
    {| timestamp := datetime_now_isoformat clock; detected_emotion := emotion;
       confidence := confidence; rating := rating;
       feedback_text := feedback_text;
       num_recommendations := num_recommendations |} in
  let df := match file with
            | File df => read_csv df
            | NoDirectory | NoFile => []
            end in
  let df := df ++ [new_feedback] in
  match file with
  | NoDirectory => Raised "OSError"
  | NoFile | File _ => Returned (File df)
  end.

Record confidence_stats := mkStats {
  stat_mean : Q;
  stat_min : Q;
  stat_max : Q
}.

Record summary := mkSummary {
  total_feedback : nat;
  average_rating : Q;
  emotion_distribution : gmap string nat;
  conf_stats : confidence_stats
}.

Definition Qsum (l : list Q) : Q := foldr Qplus 0%Q l.

(** [Series.mean()], without the rounding of the float sum. *)
Definition mean (l : list Q) : Q :=
  (Qsum l / inject_Z (Z.of_nat (length l)))%Q.

(** [Series.min()], [Series.max()] of a column that is not empty. *)
Definition series_min (x : Q) (l : list Q) : Q := foldr Qmin x l.
Definition series_max (x : Q) (l : list Q) : Q := foldr Qmax x l.

(** The counts of the values of a column without NaN. *)
Definition count_values (l : list string) : gmap string nat :=
  foldr (fun e m => <[e := S (default 0 (m !! e))]> m) ∅ l.

(** [Series.value_counts().to_dict()] on a text column of a frame read from
    the file: NaN cells are dropped, the others counted. *)
Definition value_counts (column : list string) : gmap string nat :=
  count_values (dropna column).

(** [export_feedback_summary()]; [None] is the value it returns when there
    is no data. *)
Definition export_feedback_summary (file : feedback_csv) : option summary :=
  match file with
  | NoDirectory | NoFile => None
  | File rows =>
      match read_csv rows with
      | [] => None
      | (r :: _) as df =>
          let confidences := confidence <$> df in
          Some {| total_feedback := length df;
                  average_rating := mean ((fun r => inject_Z (rating r)) <$> df);
                  emotion_distribution := value_counts (detected_emotion <$> df);
                  conf_stats :=
                    {| stat_mean := mean confidences;
                       stat_min := series_min (confidence r) confidences;
                       stat_max := series_max (confidence r) confidences |} |}
      end
  end.

(** *** Display helpers *)

(** [calculate_emotion_confidence_level(confidence)] *)
Definition calculate_emotion_confidence_level (confidence : Q) : string :=
  if Qle_bool (9 # 10) confidence then "Very High"
  else if Qle_bool (7 # 10) confidence then "High"
  else if Qle_bool (5 # 10) confidence then "Medium"
  else if Qle_bool (3 # 10) confidence then "Low"
  else "Very Low".

(** The dict of [get_emotion_emoji]; the values are the UTF-8 texts of the
    emoji. *)
Definition emotion_emoji : gmap string string :=
  list_to_map
    [ ("happy", "😊"); ("sad", "😢"); ("angry", "😠");
      ("surprise", "😲"); ("fear", "😨"); ("disgust", "🤢");
      ("neutral", "😐") ].

(** [get_emotion_emoji(emotion)] *)
Definition get_emotion_emoji (emotion : string) : string :=
  default "🤔" (emotion_emoji !! PyStr.lower emotion).

End Utils.

(** ** src/emotion_detector.py *)

Module EmotionDetector.

(** The dict [detect_emotion] returns. *)
Record detection := mkDetection {
  success : bool;
  emotion : option string;
  confidence : Q;
  all_emotions : gmap string Q;
  error : option string
}.

(** The [emotions] list of [_fallback_detection]. *)
Definition emotions : list string :=
  ["happy"; "sad"; "angry"; "surprise"; "fear"; "disgust"; "neutral"].

(** The heuristic of [_fallback_detection] on [brightness = np.mean(gray)]
    and [contrast = np.std(gray)]: the emotion and its confidence. *)
Definition fallback_emotion (brightness contrast : Q) : string * Q :=
  if negb (Qle_bool brightness 150) then ("happy", 7 # 10)%Q
  else if negb (Qle_bool 80 brightness) then ("sad", 6 # 10)%Q
  else if negb (Qle_bool contrast 50) then ("surprise", 5 # 10)%Q
  else ("neutral", 8 # 10)%Q.

(** [_fallback_detection(image)] for an image whose grayscale has the given
    mean and standard deviation (the conversion raises nothing). *)
Definition _fallback_detection (brightness contrast : Q) : detection :=
  let '(emotion, confidence) := fallback_emotion brightness contrast in
  let all_emotions : gmap string Q :=
    list_to_map ((λ e, (e, (1 # 10)%Q)) <$> emotions) in
  let all_emotions := <[emotion := confidence]> all_emotions in
  {| success := true; emotion := Some emotion; confidence := confidence;
     all_emotions := all_emotions; error := None |}.

(** [get_available_emotions()] *)
Definition get_available_emotions (deepface_available : bool) : list string :=
  if deepface_available
  then ["angry"; "disgust"; "fear"; "happy"; "sad"; "surprise"; "neutral"]
  else ["happy"; "sad"; "angry"; "surprise"; "fear"; "disgust"; "neutral"].

End EmotionDetector.

(** ** src/integrations/spotify_utils.py *)

Module Spotify.

(** A field of a JSON object of the provider: the key is absent, its value
    is null, or it has a value. *)
Inductive json (A : Type) :=
| Absent
| Null
| Value (a : A).

Arguments Absent {A}.
Arguments Null {A}.
Arguments Value {A} a.

(** [d.get(key, default)]: the default stands in for an absent key only; a
    null value comes back as Python's None. *)
Definition get {A} (field : json A) (default : A) : option A :=
  match field with
  | Absent => Some default
  | Null => None
  | Value a => Some a
  end.

Definition is_null {A} (field : json A) : bool :=
  match field with
  | Null => true
  | Absent | Value _ => false
  end.

(** A playlist item of a provider response. [raw_name] and
    [raw_external_urls] are [None] for a key that is absent or null (the
    code tests their truth only), [raw_images] is the list of the image
    urls (empty for an absent or null key); [raw_tracks] holds the "total"
    field of the "tracks" object, [raw_owner] the "display_name" field of
    the "owner" object. *)
Record raw_playlist := mkRaw {
  raw_name : option string;
  raw_external_urls : option (gmap string string);
  raw_images : list string;
  raw_description : json string;
  raw_tracks : json (json Z);
  raw_owner : json (json string)
}.

(** The dict [_search_playlists] builds for a playlist; [None] is Python's
    None, the value of a field that the provider sent as null. *)
Record playlist := mkPlaylist {
  name : string;
  url : string;
  image : option string;
  description : option string;
  total_tracks : option Z;
  owner : option string
}.

(** The spotipy client: [search q type limit] is the item list of the
    response, [None] when the call raises. Items may be null. *)
Record Client := mkClient {
  search : string -> string -> nat -> option (list (option raw_playlist))
}.

Record SpotifyMoodRecommender := mkSpotify {
  client : option Client
}.

(** [mood_keywords] *)
Definition mood_keywords : gmap string (list string) :=
  list_to_map
    [ ("happy", ["happy"; "upbeat"; "positive"; "cheerful"; "joyful"]);
      ("sad", ["sad"; "melancholy"; "emotional"; "heartbreak"; "blue"]);
      ("angry", ["angry"; "rage"; "metal"; "punk"; "aggressive"]);
      ("surprised", ["energetic"; "exciting"; "surprise"; "uplifting"; "dynamic"]);
      ("fear", ["calm"; "relaxing"; "soothing"; "peaceful"; "meditation"]);
      ("disgust", ["alternative"; "indie"; "experimental"; "unique"; "different"]);
      ("neutral", ["chill"; "ambient"; "focus"; "study"; "background"]);
      ("energetic", ["workout"; "pump up"; "energetic"; "motivation"; "power"]);
      ("relaxed", ["chill"; "lounge"; "ambient"; "relaxing"; "calm"]);
      ("romantic", ["love"; "romantic"; "valentine"; "date night"; "intimate"]) ].

(** Python truth of an optional string: [None] and "" are false. *)
Definition truthy (s : option string) : bool :=
  match s with
  | Some s => negb (bool_decide (s = ""))
  | None => false
  end.

(** [_initialize_client]: the credentials of the environment, the
    constructor of the client ([None]: it raises) and the test search. *)
Definition _initialize_client (client_id client_secret : option string)
    (connect : string -> string -> option Client) : SpotifyMoodRecommender :=
  match client_id, client_secret with
  | Some id, Some secret =>
      if truthy client_id && truthy client_secret then
        match connect id secret with
        | None => {| client := None |}
        | Some c =>
            match search c "test" "track" 1 with
            | None => {| client := None |}
            | Some _ => {| client := Some c |}
            end
        end
      else {| client := None |}
  | _, _ => {| client := None |}
  end.

(** [_get_search_terms(mood)] *)
Definition _get_search_terms {U : PyUnicode} (mood : string) : list string :=
  let mood_lower := str_strip (str_lower mood) in
  default ["music"; "playlist"; "songs"] (mood_keywords !! mood_lower).

(** [playlist.get(key, {}).get(inner, default)]: a null object has no
    [get], and the call raises AttributeError. *)
Definition get_nested {A} (field : json (json A)) (default : A)
    : outcome (option A) :=
  match field with
  | Absent => Returned (Some default)
  | Null => Raised "AttributeError"
  | Value inner => Returned (get inner default)
  end.

(** The body of the loop of [_search_playlists] for one item: the list
    grown or left as it is, or the exception raised while the dict is
    built: KeyError for a missing "spotify" link, AttributeError for a
    "tracks" or an "owner" that is null. *)
Definition add_item (playlists : list playlist) (item : option raw_playlist)
    : outcome (list playlist) :=
  match item with
  | None => Returned playlists
  | Some p =>
      match raw_name p, raw_external_urls p with
      | Some nm, Some urls =>
          if negb (bool_decide (nm = "")) && negb (bool_decide (urls = ∅)) then
            match urls !! "spotify" with
            | None => Raised "KeyError"
            | Some link =>
                match get_nested (raw_tracks p) 0%Z with
                | Raised e => Raised e
                | Returned total =>
                    match get_nested (raw_owner p) "Unknown" with
                    | Raised e => Raised e
                    | Returned display_name =>
                        Returned
                          (playlists ++
                           [ {| name := nm; url := link;
                                image := List.head (raw_images p);
                                description := get (raw_description p) "";
                                total_tracks := total;
                                owner := display_name |} ])
                    end
                end
            end
          else Returned playlists
      | _, _ => Returned playlists
      end
  end.

Fixpoint add_items (playlists : list playlist) (items : list (option raw_playlist))
    : outcome (list playlist) :=
  match items with
  | [] => Returned playlists
  | item :: rest =>
      match add_item playlists item with
      | Returned playlists' => add_items playlists' rest
      | Raised e => Raised e
      end
  end.

(** [_search_playlists(search_term, limit)]: any exception gives []. *)
Definition _search_playlists (c : Client) (search_term : string) (limit : nat)
    : list playlist :=
  match search c search_term "playlist" limit with
  | None => []
  | Some items =>
      match add_items [] items with
      | Returned playlists => playlists
      | Raised _ => []
      end
  end.

(** The first loop of [get_playlists_by_mood]: one search per term until
    [2 * n_playlists] raw results are gathered. Returns [all_playlists]
    and the queries sent, in order. *)
Fixpoint gather (c : Client) (n_playlists : nat) (terms : list string)
    (all_playlists : list playlist) (queries : list string)
    : list playlist * list string :=
  match terms with
  | [] => (all_playlists, queries)
  | term :: rest =>
      let q := term +:+ " playlist" in
      let all_playlists := all_playlists ++ _search_playlists c q 10 in
      let queries := queries ++ [q] in
      if n_playlists * 2 <=? length all_playlists then (all_playlists, queries)
      else gather c n_playlists rest all_playlists queries
  end.

(** The test of the second loop on the name and the size alone, for a
    candidate whose track count is an integer; a candidate without one does
    not pass. *)
Definition quality_ok (p : playlist) : bool :=
  (3 <? PyStr.len (name p))
  && match total_tracks p with
     | Some total => (10 <? total)%Z
     | None => false
     end.

(** The second loop: [seen_names] and [unique_playlists] after the loop
    over [all_playlists], which stops once [n_playlists] are kept. The
    condition is evaluated from the left: [None > 10] is reached for a new
    name of more than 3 characters, and raises TypeError. *)
Fixpoint select_loop {U : PyUnicode} (n_playlists : nat)
    (all_playlists : list playlist)
    (seen_names : gset string) (unique_playlists : list playlist)
    : outcome (gset string * list playlist) :=
  match all_playlists with
  | [] => Returned (seen_names, unique_playlists)
  | p :: rest =>
      let name_lower := str_lower (name p) in
      if bool_decide (name_lower ∉ seen_names) && (3 <? PyStr.len (name p)) then
        match total_tracks p with
        | None => Raised "TypeError"
        | Some total =>
            if (10 <? total)%Z then
              let seen_names := seen_names ∪ {[ name_lower ]} in
              let unique_playlists := unique_playlists ++ [p] in
              if n_playlists <=? length unique_playlists
              then Returned (seen_names, unique_playlists)
              else select_loop n_playlists rest seen_names unique_playlists
            else select_loop n_playlists rest seen_names unique_playlists
        end
      else select_loop n_playlists rest seen_names unique_playlists
  end.

(** Lines 140-161: the loop from empty [seen_names] and
    [unique_playlists], then [unique_playlists[:n_playlists]]; the [except]
    clause returns [] when the loop raises. *)
Definition select {U : PyUnicode} (n_playlists : nat)
    (all_playlists : list playlist) : list playlist :=
  match select_loop n_playlists all_playlists ∅ [] with
  | Returned (_, unique_playlists) => take n_playlists unique_playlists
  | Raised _ => []
  end.

(** [get_playlists_by_mood(mood, n_playlists)]: the list returned and the
    search queries sent. [mood] is [None] for Python's None. *)
Definition get_playlists_by_mood {U : PyUnicode} (self : SpotifyMoodRecommender)
    (mood : option string) (n_playlists : nat) : list playlist * list string :=
  match client self with
  | None => ([], [])
  | Some c =>
      let mood := if truthy mood then default "music" mood else "music" in
      let search_terms := _get_search_terms mood in
      let '(all_playlists, queries) :=
        gather c n_playlists (take 3 search_terms) [] [] in
      (select n_playlists all_playlists, queries)
  end.

(** [is_available()] *)
Definition is_available (self : SpotifyMoodRecommender) : bool :=
  bool_decide (client self <> None).

(** The environment of an initialization: the two credentials and the
    constructor of the client. *)
Record Env := mkEnv {
  env_client_id : option string;
  env_client_secret : option string;
  env_connect : string -> string -> option Client
}.

(** [get_spotify_recommender()]: the module global [_spotify_recommender]
    is threaded through; the instance is built on the first call only. *)
Definition get_spotify_recommender (env : Env)
    (_spotify_recommender : option SpotifyMoodRecommender)
    : SpotifyMoodRecommender * option SpotifyMoodRecommender :=
  match _spotify_recommender with
  | None =>
      let r := _initialize_client (env_client_id env) (env_client_secret env)
                 (env_connect env) in
      (r, Some r)
  | Some r => (r, Some r)
  end.

(** The module function [get_playlists_by_mood(mood, n_playlists)]. *)
Definition module_get_playlists_by_mood {U : PyUnicode} (env : Env)
    (_spotify_recommender : option SpotifyMoodRecommender)
    (mood : option string) (n_playlists : nat)
    : (list playlist * list string) * option SpotifyMoodRecommender :=
  let '(recommender, global) := get_spotify_recommender env _spotify_recommender in
  (get_playlists_by_mood recommender mood n_playlists, global).

(** [is_spotify_available()] *)
Definition is_spotify_available (env : Env)
    (_spotify_recommender : option SpotifyMoodRecommender)
    : bool * option SpotifyMoodRecommender :=
  let '(recommender, global) := get_spotify_recommender env _spotify_recommender in
  (is_available recommender, global).

End Spotify.

(** ** Statements of the specification, for comparison with the code *)

Module SpecWords.



(** "Deduplicate by case-insensitive exact name match (first occurrence
    wins ...)": the candidates whose lower-cased name was not met before,
    in their order. *)
Fixpoint first_by_name {U : PyUnicode} (seen : gset string)
    (l : list Spotify.playlist) : list Spotify.playlist :=
  match l with
  | [] => []
  | p :: rest =>
      let name_lower := str_lower (Spotify.name p) in
      if bool_decide (name_lower ∈ seen) then first_by_name seen rest
      else p :: first_by_name (seen ∪ {[ name_lower ]}) rest
  end.

End SpecWords.

(** The lower-cased names of a list of candidates, as a set. *)
Definition names_of {U : PyUnicode} (l : list Spotify.playlist) : gset string :=
  list_to_set ((λ p, str_lower (Spotify.name p)) <$> l).

(** A candidate whose track count is an integer, as the provider documents
    it. *)
Definition counted (p : Spotify.playlist) : Prop :=
  is_Some (Spotify.total_tracks p).

(** A provider item that [_search_playlists] keeps: it is not null, its
    name is not empty and its external_urls is not empty. *)
Definition kept_item (item : option Spotify.raw_playlist) : bool :=
  match item with
  | Some p =>
      match Spotify.raw_name p, Spotify.raw_external_urls p with
      | Some nm, Some urls =>
          negb (bool_decide (nm = "")) && negb (bool_decide (urls = ∅))
      | _, _ => false
      end
  | None => false
  end.

(** A kept item for which building the candidate raises: its
    external_urls has no "spotify" key (KeyError), or its "tracks" or its
    "owner" is null (AttributeError). *)
Definition broken_item (item : option Spotify.raw_playlist) : bool :=
  kept_item item
  && match item with
     | Some p =>
         match Spotify.raw_external_urls p with
         | Some urls => bool_decide (urls !! "spotify" = None)
         | None => false
         end
         || Spotify.is_null (Spotify.raw_tracks p)
         || Spotify.is_null (Spotify.raw_owner p)
     | None => false
     end.

(** The candidate made of a kept item that is not broken. *)
Definition candidate_of (item : option Spotify.raw_playlist)
    : option Spotify.playlist :=
  if kept_item item && negb (broken_item item) then
    match item with
    | Some p =>
        match Spotify.raw_name p, Spotify.raw_external_urls p with
        | Some nm, Some urls =>
            link ← urls !! "spotify";
            Some {| Spotify.name := nm; Spotify.url := link;
                    Spotify.image := List.head (Spotify.raw_images p);
                    Spotify.description :=
                      Spotify.get (Spotify.raw_description p) "";
                    Spotify.total_tracks :=
                      match Spotify.raw_tracks p with
                      | Spotify.Value total => Spotify.get total 0%Z
                      | _ => Some 0%Z
                      end;
                    Spotify.owner :=
                      match Spotify.raw_owner p with
                      | Spotify.Value display_name =>
                          Spotify.get display_name "Unknown"
                      | _ => Some "Unknown"
                      end |}
        | _, _ => None
        end
    | None => None
    end
  else None.

(** The mood [get_playlists_by_mood] searches for: "music" for None and
    for the empty string. *)
Definition searched_mood (mood : option string) : string :=
  if Spotify.truthy mood then default "music" mood else "music".

(** The query sent for a search term. *)
Definition query_of (term : string) : string := term +:+ " playlist".

(** The sum of the counts of a distribution. *)
Definition distribution_total (m : gmap string nat) : nat :=
  map_fold (λ _ k acc, k + acc) 0 m.



(** An emotion label that the CSV file gives back as the text written: it
    is made of ASCII letters, at least one, and is none of the words that
    pandas reads as a missing value, a number or a truth value. *)
Definition is_letter (c : ascii) : bool :=
  let n := nat_of_ascii c in
  ((65 <=? n) && (n <=? 90)) || ((97 <=? n) && (n <=? 122)).

Definition is_label (emotion : string) : bool :=
  negb (bool_decide (emotion = ""))
  && forallb is_letter (list_ascii_of_string emotion)
  && negb (bool_decide (PyStr.lower emotion
                          ∈ ["nan"; "null"; "none"; "na"; "inf"; "infinity";
                             "true"; "false"])).

(** The five confidence levels, from the lowest. *)
Definition level_rank (level : string) : nat :=
  if bool_decide (level = "Very High") then 4
  else if bool_decide (level = "High") then 3
  else if bool_decide (level = "Medium") then 2
  else if bool_decide (level = "Low") then 1
  else 0.

(** ** Inputs used in the examples *)

(** A generator whose uniform draws are all 0 and whose sample picks the
    row at position 1. *)
Definition rs_pick1 : RandomState := {| uniform := fun _ => 0%Q; choice := [1] |}.

Definition happy_tags : list string :=
  ["entertainment"; "social"; "celebration"; "joy"; "fun"; "colorful"].



(** A clock of a machine one hour ahead of UTC. *)
Definition nine_o_clock : Utils.Clock :=
  {| Utils.local_iso := "2026-01-01T09:00:00.000000";
     Utils.utc_iso := "2026-01-01T08:00:00.000000" |}.

(** [str.lower] and [str.strip] on ASCII text alone: the examples use no
    other text. *)
Definition ascii_tables : PyUnicode :=
  {| str_lower := PyStr.lower; str_strip := PyStr.strip;
     str_lower_ascii := λ _ _, eq_refl; str_strip_ascii := λ _ _, eq_refl |}.

(** Two candidates whose names differ in case only, and a third with the
    first name and too few tracks. *)
Definition happy_vibes : Spotify.playlist :=
  {| Spotify.name := "Happy Vibes"; Spotify.url := "https://open.spotify.com/playlist/1";
     Spotify.image := None; Spotify.description := Some "";
     Spotify.total_tracks := Some 50%Z; Spotify.owner := Some "Unknown" |}.

Definition happy_vibes_lower : Spotify.playlist :=
  {| Spotify.name := "happy vibes"; Spotify.url := "https://open.spotify.com/playlist/2";
     Spotify.image := None; Spotify.description := Some "";
     Spotify.total_tracks := Some 40%Z; Spotify.owner := Some "Unknown" |}.

Definition happy_vibes_small : Spotify.playlist :=
  {| Spotify.name := "Happy Vibes"; Spotify.url := "https://open.spotify.com/playlist/3";
     Spotify.image := None; Spotify.description := Some "";
     Spotify.total_tracks := Some 5%Z; Spotify.owner := Some "Unknown" |}.

(** A provider field with the value that [get] reads back. *)
Definition field_of {A} (value : option A) : Spotify.json A :=
  match value with
  | Some a => Spotify.Value a
  | None => Spotify.Null
  end.

(** The provider item that [_search_playlists] turns into a candidate. *)
Definition raw_of (p : Spotify.playlist) : option Spotify.raw_playlist :=
  Some {| Spotify.raw_name := Some (Spotify.name p);
          Spotify.raw_external_urls := Some {[ "spotify" := Spotify.url p ]};
          Spotify.raw_images := [];
          Spotify.raw_description := field_of (Spotify.description p);
          Spotify.raw_tracks := Spotify.Value (field_of (Spotify.total_tracks p));
          Spotify.raw_owner := Spotify.Value (field_of (Spotify.owner p)) |}.

(** A client that answers the query "happy playlist" with the given items
    and every other query with no item. *)
Definition client_returning (items : list Spotify.playlist) : Spotify.Client :=
  {| Spotify.search q type limit :=
       if bool_decide (q = "happy playlist") then Some (raw_of <$> items)
       else Some [] |}.


(** * Properties *)

(** ** Strings *)

Section StringFacts.
Import PyStr.

Lemma lower_ascii_idemp c : lower_ascii (lower_ascii c) = lower_ascii c.
Proof. by destruct c as [[] [] [] [] [] [] [] []]. Qed.

Lemma lower_idemp s : lower (lower s) = lower s.
Proof. induction s as [|c s IH]; simpl; [done|]. by rewrite lower_ascii_idemp, IH. Qed.

Lemma split_not_nil sep s : split sep s <> [].
Proof.
  destruct s as [|c s]; simpl; [done|].
  case_decide; [done|]. by destruct (split sep s).
Qed.

End StringFacts.

(** ** The ranker *)

Section RankerFacts.
Import Recommender.

#[local] Instance score_ge_total : Total score_ge.
Proof.
  intros a b. unfold score_ge. rewrite !Qle_bool_iff.
  destruct (Qlt_le_dec a.1 b.1) as [H|H]; [right; by apply Qlt_le_weak | by left].
Qed.

#[local] Instance score_ge_trans : Transitive score_ge.
Proof.
  intros a b c. unfold score_ge. rewrite !Qle_bool_iff.
  intros Hab Hbc. by apply Qle_trans with b.1.
Qed.

Lemma sort_values_Permutation l : sort_values l ≡ₚ l.
Proof. apply merge_sort_Permutation. Qed.

Lemma sort_values_sorted l : StronglySorted score_ge (sort_values l).
Proof. apply (StronglySorted_merge_sort score_ge). Qed.

Lemma scores_length rs tags start df :
  length (scores rs tags start df) = length df.
Proof. revert start. induction df as [|p df IH]; intros start; simpl; auto. Qed.

Lemma products_with_scores_rows rs tags df :
  (products_with_scores rs tags df).*2 = df.
Proof. apply snd_zip. by rewrite scores_length. Qed.

Lemma drop_score_sorted rs tags df :
  drop_score (sort_values (products_with_scores rs tags df)) ≡ₚ df.
Proof.
  unfold drop_score. rewrite sort_values_Permutation.
  by rewrite products_with_scores_rows.
Qed.

(** An emotion of the vocabulary has at least one tag, so the union in
    the score is never empty (no division by zero). *)
Lemma emotion_tags_not_nil e tags : emotion_mapping !! e = Some tags → tags <> [].
Proof.
  intros H ->. apply elem_of_list_to_map_2 in H.
  repeat (apply elem_of_cons in H as [H|H]; [discriminate H|]).
  by apply elem_of_nil in H.
Qed.

Lemma sample_length {A} draws k (rows : list A) :
  length (sample draws k rows) = min k (length rows).
Proof.
  revert draws rows. induction k as [|k IH]; intros draws rows; simpl; [done|].
  destruct rows as [|r0 rows]; [by rewrite lookup_nil|].
  set (i := hd 0 draws mod length (r0 :: rows)).
  assert (Hi : i < length (r0 :: rows)) by (apply Nat.mod_upper_bound; done).
  destruct (lookup_lt_is_Some_2 _ _ Hi) as [r Hr]. rewrite Hr. simpl.
  rewrite IH, length_delete by eauto. simpl. lia.
Qed.

Lemma sample_submseteq {A} draws k (rows : list A) :
  sample draws k rows ⊆+ rows.
Proof.
  revert draws rows. induction k as [|k IH]; intros draws rows; simpl.
  { apply submseteq_nil_l. }
  destruct (rows !! _) as [r|] eqn:Hr; [|apply submseteq_nil_l].
  transitivity (r :: delete (hd 0 draws `mod` length rows) rows).
  - apply submseteq_skip, IH.
  - apply Permutation_submseteq. symmetry. by apply delete_Permutation.
Qed.

Lemma ranked_result_eq rs e tags C n :
  emotion_mapping !! PyStr.lower e = Some tags →
  get_recommendations rs (Some C) e n
  = drop_score (head n (sort_values (products_with_scores rs tags C))).
Proof.
  intros He. unfold get_recommendations. rewrite He.
  destruct C; [by destruct n|done].
Qed.

Lemma sampled_result_eq rs e C n :
  emotion_mapping !! PyStr.lower e = None →
  get_recommendations rs (Some C) e n
  = sample (choice rs) (min n (length C)) C.
Proof.
  intros He. unfold get_recommendations. rewrite He.
  destruct C; [|done]. by rewrite Nat.min_0_r.
Qed.

End RankerFacts.

(** ** The ranker: the claims *)

Section RankerClaims.
Import Recommender.

(** C1, as the code has it: for a catalog of one item tagged
    "entertainment, music, joy, fun" and the emotion "happy", whose tags
    are entertainment, social, celebration, joy, fun, colorful, the score
    before the perturbation is |E ∩ T| / |E ∪ T| = 3/7 (three common tags
    out of seven in all), and the item is the result of
    [get_recommendations "happy" 1] whatever the random draws. *)
Theorem happy_single_item_score id nm pr img rs :
  let item := {| product_id := id; name := nm; price := pr; image_url := img;
                 mood_tags := Some "entertainment, music, joy, fun" |} in
  emotion_mapping !! "happy" = Some happy_tags
  ∧ size (tag_set happy_tags ∩ tag_set (product_tags item)) = 3
  ∧ size (tag_set happy_tags ∪ tag_set (product_tags item)) = 7
  ∧ jaccard happy_tags item = (3 # 7)%Q
  ∧ get_recommendations rs (Some [item]) "happy" 1 = [item].
Proof.
  intros item. repeat split; vm_compute; reflexivity.
Qed.

(** C1 as stated fails: the score of the sample headphones for "happy" is
    not 4/6. *)
Lemma happy_single_item_score_not_4_6 :
  ¬ ((jaccard happy_tags headphones == 4 # 6)%Q
     ∧ headphones ∈ get_recommendations rs_pick1 (Some [headphones]) "happy" 1).
Proof. intros [H _]. vm_compute in H. discriminate H. Qed.

(** C5: for an emotion [e] of the vocabulary, a catalog [C] and a count
    [n], [get_recommendations] returns at most [min n |C|] rows, all rows
    of [C] and none more often than [C] has it, so without duplicate ids
    when the ids of [C] are distinct; the rows are those of the frame
    sorted by descending perturbed score, cut at [n], with the score
    column removed; an empty (or absent) catalog gives the empty result;
    and for [n ≥ |C|] the result is the whole catalog in that order. *)
Theorem get_recommendations_known rs e tags C n :
  emotion_mapping !! PyStr.lower e = Some tags →
  let r := get_recommendations rs (Some C) e n in
  length r ≤ min n (length C)
  ∧ r ⊆+ C
  ∧ (∀ p, p ∈ r → p ∈ C)
  ∧ (NoDup (product_id <$> C) → NoDup (product_id <$> r))
  ∧ (∃ ranked : list scored_row,
        ranked ≡ₚ products_with_scores rs tags C
        ∧ StronglySorted score_ge ranked
        ∧ r = snd <$> take n ranked
        ∧ (length C ≤ n → r = snd <$> ranked))
  ∧ (length C ≤ n → r ≡ₚ C)
  ∧ get_recommendations rs (Some []) e n = []
  ∧ get_recommendations rs None e n = [].
Proof.
  intros He r.
  assert (Hr : r = drop_score (head n (sort_values (products_with_scores rs tags C))))
    by (by apply ranked_result_eq).
  set (ranked := sort_values (products_with_scores rs tags C)) in *.
  assert (Hperm : ranked.*2 ≡ₚ C) by apply drop_score_sorted.
  assert (Hsub : r ⊆+ C).
  { rewrite Hr. unfold drop_score, head. rewrite fmap_take, <- Hperm.
    apply submseteq_take. }
  assert (Hlen : length ranked = length C).
  { rewrite <- Hperm. by rewrite length_fmap. }
  split_and!.
  - rewrite Hr. unfold drop_score, head.
    rewrite length_fmap, length_take, Hlen. done.
  - done.
  - intros p Hp. by eapply elem_of_submseteq.
  - intros Hnd. rewrite Hr. unfold drop_score, head.
    rewrite !fmap_take.
    eapply sublist_NoDup; [|apply sublist_take]. by rewrite Hperm.
  - exists ranked. split; [apply sort_values_Permutation|].
    split; [apply sort_values_sorted|]. split; [done|].
    intros Hn. rewrite Hr. unfold drop_score, head.
    rewrite take_ge; [done|lia].
  - intros Hn. rewrite Hr. unfold drop_score, head.
    rewrite take_ge; [done|lia].
  - done.
  - done.
Qed.

Lemma get_recommendations_known_witness :
  emotion_mapping !! PyStr.lower "Happy" = Some happy_tags
  ∧ length (get_recommendations rs_pick1 (Some sample_products) "Happy" 1) ≤ 1.
Proof.
  split; [vm_compute; reflexivity|].
  apply (get_recommendations_known rs_pick1 "Happy" happy_tags sample_products 1).
  vm_compute; reflexivity.
Defined.

(** What the code does for a label that is not in the vocabulary once
    lower-cased: a sample of [min n |C|] rows of [C], none taken twice. *)
Lemma unknown_label_sample rs e C n :
  emotion_mapping !! PyStr.lower e = None →
  let r := get_recommendations rs (Some C) e n in
  r = sample (choice rs) (min n (length C)) C
  ∧ length r = min n (length C)
  ∧ r ⊆+ C.
Proof.
  intros He r. assert (Hr := sampled_result_eq rs e C n He).
  fold r in Hr. rewrite Hr. split; [done|]. split.
  - rewrite sample_length. lia.
  - apply sample_submseteq.
Qed.

(** On the sample catalog the ranking for "happy" puts the headphones first
    whatever the perturbations: 3/7 - 0.1 is above 0 + 0.1. *)
Lemma happy_ranks_headphones_first rs :
  uniform_in_range rs →
  get_recommendations rs (Some sample_products) "happy" 1 = [headphones].
Proof.
  intros Hrange.
  rewrite (ranked_result_eq rs "happy" happy_tags) by (vm_compute; reflexivity).
  unfold sample_products, products_with_scores. cbn [scores zip zip_with].
  assert (H1 : jaccard happy_tags headphones = (3 # 7)%Q) by (vm_compute; reflexivity).
  assert (H2 : jaccard happy_tags oil_set = (0 # 10)%Q) by (vm_compute; reflexivity).
  rewrite H1, H2.
  destruct (Hrange 0) as [Hlo _]. destruct (Hrange 1) as [_ Hhi].
  set (u0 := uniform rs 0) in *. set (u1 := uniform rs 1) in *.
  assert (Hge : score_ge ((3 # 7) + u0, headphones)%Q (((0 # 10) + u1)%Q, oil_set)).
  { unfold score_ge. apply Qle_bool_iff. cbn [fst]. lra. }
  unfold sort_values, merge_sort. cbn [merge_sort_aux merge_list_to_stack].
  cbn [list_merge]. rewrite decide_True by done. reflexivity.
Qed.

(** C4 at the label " HAPPY ": the code lower-cases the label and does not
    trim it, so " happy " is looked up, is not a key, and the result is
    the random sample, while "happy" (the trimmed label) is ranked by
    score: on the sample catalog and the draws [rs_pick1] the two results
    differ, and the row returned for " HAPPY " is one the ranking for "happy"
    returns for no perturbation. Lower-casing alone is applied for every
    label. *)
Theorem get_recommendations_untrimmed_label :
  (∀ rs C e n,
      get_recommendations rs C (PyStr.lower e) n = get_recommendations rs C e n)
  ∧ PyStr.lower " HAPPY " = " happy "
  ∧ emotion_mapping !! " happy " = None
  ∧ emotion_mapping !! PyStr.strip (PyStr.lower " HAPPY ") = Some happy_tags
  ∧ (∀ rs C n,
        get_recommendations rs (Some C) " HAPPY " n
        = sample (choice rs) (min n (length C)) C)
  ∧ get_recommendations rs_pick1 (Some sample_products) " HAPPY " 1 = [oil_set]
  ∧ get_recommendations rs_pick1 (Some sample_products) "HAPPY" 1 = [headphones]
  ∧ get_recommendations rs_pick1 (Some sample_products) "happy" 1 = [headphones]
  ∧ (∀ rs, uniform_in_range rs →
        get_recommendations rs (Some sample_products) "happy" 1 = [headphones]).
Proof.
  split.
  { intros rs C e n. unfold get_recommendations. by rewrite lower_idemp. }
  split_and!; try (vm_compute; reflexivity).
  - intros rs C n. by apply sampled_result_eq.
  - apply happy_ranks_headphones_first.
Qed.

End RankerClaims.

(** ** The catalog: add_product and validate_product_data *)

Section CatalogClaims.
Import Recommender Utils.





Lemma find_snoc {A} (f : A → bool) l x :
  find f (l ++ [x])
  = match find f l with
    | Some y => Some y
    | None => if f x then Some x else None
    end.
Proof.
  induction l as [|y l IH]; simpl; [done|]. by destruct (f y).
Qed.




End CatalogClaims.

(** ** The feedback log *)

Section FeedbackClaims.
Import Utils.

Lemma count_values_snoc_eq l e :
  count_values (l ++ [e]) !! e = Some (S (default 0 (count_values l !! e))).
Proof.
  induction l as [|x l IH]; simpl.
  - by rewrite lookup_insert_eq, lookup_empty.
  - destruct (decide (x = e)) as [->|Hne].
    + by rewrite !lookup_insert_eq, IH.
    + by rewrite !lookup_insert_ne.
Qed.

Lemma count_values_snoc_ne l e e' :
  e' <> e → count_values (l ++ [e]) !! e' = count_values l !! e'.
Proof.
  intros Hne. induction l as [|x l IH]; simpl.
  - by rewrite lookup_insert_ne.
  - destruct (decide (x = e')) as [->|Hx].
    + by rewrite !lookup_insert_eq, IH.
    + by rewrite !lookup_insert_ne.
Qed.

Lemma is_na_empty : is_na "" = true.
Proof. reflexivity. Qed.

Lemma read_cell_idemp s : read_cell (read_cell s) = read_cell s.
Proof. unfold read_cell. destruct (is_na s) eqn:H; [done|]. by rewrite H. Qed.

Lemma read_cell_empty s : read_cell s = "" ↔ is_na s = true.
Proof.
  unfold read_cell. destruct (is_na s) eqn:H; [done|].
  split; [|done]. intros ->. by rewrite is_na_empty in H.
Qed.

Lemma read_cell_text s : is_na s = false → read_cell s = s.
Proof. unfold read_cell. by intros ->. Qed.

Lemma read_csv_idemp df : read_csv (read_csv df) = read_csv df.
Proof.
  unfold read_csv. rewrite <- list_fmap_compose. apply list_fmap_ext.
  intros _ r _. simpl. by rewrite !read_cell_idemp.
Qed.

Lemma read_csv_app df1 df2 : read_csv (df1 ++ df2) = read_csv df1 ++ read_csv df2.
Proof. apply fmap_app. Qed.

Lemma read_csv_length df : length (read_csv df) = length df.
Proof. apply length_fmap. Qed.


Lemma read_csv_column {A} (f : feedback → A) df :
  (∀ r, f (mkFeedback (timestamp r) (read_cell (detected_emotion r)) (confidence r)
             (rating r) (read_cell (feedback_text r)) (num_recommendations r)) = f r) →
  f <$> read_csv df = f <$> df.
Proof.
  intros H. unfold read_csv. rewrite <- list_fmap_compose.
  apply list_fmap_ext. intros _ r _. apply H.
Qed.

Lemma dropna_app l1 l2 : dropna (l1 ++ l2) = dropna l1 ++ dropna l2.
Proof. apply filter_app. Qed.

(** A label is none of the texts read as a missing value. *)
Lemma is_label_not_na e : is_label e = true → is_na e = false.
Proof.
  intros H. destruct (is_na e) eqn:Hna; [|done].
  unfold is_na in Hna. apply bool_decide_eq_true_1 in Hna.
  unfold na_values in Hna.
  repeat (apply elem_of_cons in Hna as [->|Hna]; [by vm_compute in H|]).
  by apply elem_of_nil in Hna.
Qed.

Lemma value_counts_snoc_label l e :
  is_na e = false →
  value_counts (l ++ [read_cell e]) !! e
  = Some (S (default 0 (value_counts l !! e))).
Proof.
  intros Hna. unfold value_counts. rewrite dropna_app, read_cell_text by done.
  assert (dropna [e] = [e]) as ->.
  { unfold dropna. rewrite filter_cons_True, filter_nil; [done|].
    intros ->. by rewrite is_na_empty in Hna. }
  apply count_values_snoc_eq.
Qed.

Lemma value_counts_snoc_other l e e' :
  e' <> e → value_counts (l ++ [read_cell e]) !! e' = value_counts l !! e'.
Proof.
  intros Hne. unfold value_counts. rewrite dropna_app.
  unfold read_cell. destruct (is_na e) eqn:Hna.
  - unfold dropna at 2. rewrite filter_cons_False, filter_nil by naive_solver.
    by rewrite app_nil_r.
  - assert (dropna [e] = [e]) as ->.
    { unfold dropna. rewrite filter_cons_True, filter_nil; [done|].
      intros ->. by rewrite is_na_empty in Hna. }
    by apply count_values_snoc_ne.
Qed.

Lemma export_feedback_summary_Some df :
  df <> [] →
  ∃ s, export_feedback_summary (File df) = Some s
       ∧ total_feedback s = length df
       ∧ emotion_distribution s = value_counts (detected_emotion <$> read_csv df).
Proof.
  intros Hne. unfold export_feedback_summary.
  destruct (read_csv df) as [|r rest] eqn:Hread.
  { apply (f_equal length) in Hread. rewrite read_csv_length in Hread.
    by destruct df. }
  eexists. split; [reflexivity|]. simpl. split; [|done].
  apply (f_equal length) in Hread. by rewrite read_csv_length in Hread.
Qed.

Lemma export_total file :
  from_option total_feedback 0 (export_feedback_summary file) = length (rows file).
Proof.
  destruct file as [| |df]; [done..|].
  destruct df as [|r df]; [done|].
  destruct (export_feedback_summary_Some (r :: df)) as (s & Hs & Htot & _); [done|].
  by rewrite Hs.
Qed.

Lemma export_distribution file e :
  export_feedback_summary file ≫= (λ b, emotion_distribution b !! e)
  = value_counts (detected_emotion <$> read_csv (rows file)) !! e.
Proof.
  destruct file as [| |df]; [done..|].
  destruct df as [|r df]; [done|].
  destruct (export_feedback_summary_Some (r :: df)) as (s & Hs & _ & Hdist); [done|].
  rewrite Hs. simpl. by rewrite Hdist.
Qed.

Lemma log_feedback_rows clock e c r t k file :
  file <> NoDirectory →
  log_feedback clock e c r t k file
  = Returned (File (read_csv (rows file) ++ [mkFeedback (local_iso clock) e c r t k])).
Proof. by destruct file. Qed.



(** C9 as stated fails: a record whose emotion is the empty text is logged
    but not counted. The file holds an empty field for it, which
    [read_csv] reads as NaN and [value_counts] drops: the summary after the
    call has total_feedback 1 and an empty emotion_distribution, with no
    count for the emotion of the record. *)
Lemma log_feedback_empty_emotion_not_counted :
  ∃ file' s,
    log_feedback nine_o_clock "" (82 # 100) 4 "" 5 (File []) = Returned file'
    ∧ export_feedback_summary file' = Some s
    ∧ total_feedback s = 1
    ∧ emotion_distribution s = ∅
    ∧ emotion_distribution s !! "" <> Some 1.
Proof.
  eexists _, _. split; [reflexivity|]. split; [reflexivity|].
  split_and!; [done|done|]. by vm_compute.
Qed.

(** C9, for the labels that the CSV file gives back as text (ASCII letters,
    none of the words that pandas reads as a missing value, a number or a
    truth value; the seven emotions of the vocabulary are such labels):
    for every log in an existing directory data/ and every record with such
    an emotion, [export_feedback_summary] after [log_feedback] returns a
    summary whose [total_feedback] is one more than before and whose
    [emotion_distribution] at the emotion of the record is one more than
    before (a summary that is absent, or a key that is absent, counting as
    0), the other emotions keeping their counts. From the empty log (no
    file, or a file without rows) the record (sad, 0.82, 4, "", 5) gives
    total_feedback 1, average_rating 4, emotion_distribution {sad: 1} and
    mean = min = max = 0.82 for the confidence. *)
Theorem log_feedback_then_summary clock e c r t k file :
  is_label e = true →
  file <> NoDirectory →
  let before := export_feedback_summary file in
  let scenario (empty : feedback_csv) :=
    ∃ file' s,
      log_feedback clock "sad" (82 # 100) 4 "" 5 empty = Returned file'
      ∧ export_feedback_summary file' = Some s
      ∧ total_feedback s = 1
      ∧ (average_rating s == 4)%Q
      ∧ emotion_distribution s = {[ "sad" := 1 ]}
      ∧ (stat_mean (conf_stats s) == 82 # 100)%Q
      ∧ (stat_min (conf_stats s) == 82 # 100)%Q
      ∧ (stat_max (conf_stats s) == 82 # 100)%Q in
  (∃ file' s,
      log_feedback clock e c r t k file = Returned file'
      ∧ export_feedback_summary file' = Some s
      ∧ total_feedback s = from_option total_feedback 0 before + 1
      ∧ emotion_distribution s !! e
        = Some (default 0 (before ≫= (λ b, emotion_distribution b !! e)) + 1)
      ∧ (∀ e', e' <> e →
           emotion_distribution s !! e' = before ≫= (λ b, emotion_distribution b !! e')))
  ∧ scenario NoFile ∧ scenario (File []).
Proof.
  intros Hlabel Hdir before scenario. split_and!.
  - apply is_label_not_na in Hlabel.
    eexists. rewrite log_feedback_rows by done.
    set (record := mkFeedback (local_iso clock) e c r t k).
    destruct (export_feedback_summary_Some (read_csv (rows file) ++ [record]))
      as (s & Hs & Htot & Hdist).
    { by destruct (read_csv (rows file)). }
    exists s. split; [done|]. split; [done|]. rewrite Htot, Hdist. unfold before.
    rewrite export_total, read_csv_app, read_csv_idemp, fmap_app. simpl.
    split_and!.
    + rewrite length_app, read_csv_length. simpl. lia.
    + rewrite value_counts_snoc_label, export_distribution by done. f_equal. lia.
    + intros e' Hne. by rewrite value_counts_snoc_other, export_distribution.
  - eexists _, _. split; [reflexivity|]. split; [reflexivity|]. simpl. by split_and!.
  - eexists _, _. split; [reflexivity|]. split; [reflexivity|]. simpl. by split_and!.
Qed.

Lemma log_feedback_then_summary_witness :
  ∃ file' s,
    log_feedback nine_o_clock "sad" (82 # 100) 4 "" 5
      (File [mkFeedback "2025-12-31T10:00:00.000000" "happy" (9 # 10) 5 "" 5])
    = Returned file'
    ∧ export_feedback_summary file' = Some s
    ∧ total_feedback s = 2
    ∧ emotion_distribution s !! "sad" = Some 1
    ∧ emotion_distribution s !! "happy" = Some 1.
Proof.
  destruct (log_feedback_then_summary nine_o_clock "sad" (82 # 100) 4 "" 5
              (File [mkFeedback "2025-12-31T10:00:00.000000" "happy" (9 # 10) 5 "" 5])
              eq_refl)
    as [(file' & s & Hlog & Hs & Htot & Hsad & Hother) _]; [discriminate|].
  exists file', s. split; [exact Hlog|]. split; [exact Hs|].
  split; [exact Htot|]. split; [exact Hsad|].
  rewrite (Hother "happy"); [reflexivity|discriminate].
Defined.

End FeedbackClaims.

(** ** The playlist adapter *)

Section SpotifyFacts.
Import PyStr Spotify SpecWords.
Context {U : PyUnicode}.

Lemma quality_ok_true p :
  quality_ok p = true ↔
  3 < len (name p) ∧ ∃ total, total_tracks p = Some total ∧ (10 < total)%Z.
Proof.
  unfold quality_ok. rewrite andb_true_iff, Nat.ltb_lt.
  destruct (total_tracks p) as [total|].
  - rewrite Z.ltb_lt. naive_solver.
  - naive_solver.
Qed.

Lemma quality_ok_false p total :
  total_tracks p = Some total →
  quality_ok p = false ↔ len (name p) ≤ 3 ∨ (total ≤ 10)%Z.
Proof.
  intros Ht. unfold quality_ok. rewrite Ht.
  rewrite andb_false_iff, Nat.ltb_ge, Z.ltb_ge. done.
Qed.

Lemma quality_ok_counted p : quality_ok p = true → counted p.
Proof.
  intros (_ & total & Ht & _)%quality_ok_true. unfold counted. rewrite Ht. by eexists.
Qed.

Lemma names_of_snoc l p : names_of (l ++ [p]) = names_of l ∪ {[ str_lower (name p) ]}.
Proof.
  unfold names_of. rewrite fmap_app, list_to_set_app_L. f_equal.
  apply (list_to_set_singleton_L (C := gset string)).
Qed.

Lemma names_of_cons l p : names_of (p :: l) = {[ str_lower (name p) ]} ∪ names_of l.
Proof. done. Qed.

Lemma elem_of_names_of l s :
  s ∈ names_of l ↔ ∃ p, p ∈ l ∧ str_lower (name p) = s.
Proof.
  unfold names_of. rewrite elem_of_list_to_set, list_elem_of_fmap. naive_solver.
Qed.

(** One turn of the loop, by the cases of its test. *)
Lemma select_loop_seen_name n p rest (seen : gset string) unique :
  str_lower (name p) ∈ seen →
  select_loop n (p :: rest) seen unique = select_loop n rest seen unique.
Proof.
  intros Hin. cbn [select_loop].
  by rewrite (bool_decide_eq_false_2 (_ ∉ _)) by tauto.
Qed.

Lemma select_loop_short_name n p rest (seen : gset string) unique :
  len (name p) ≤ 3 →
  select_loop n (p :: rest) seen unique = select_loop n rest seen unique.
Proof.
  intros Hlen. cbn [select_loop].
  apply Nat.ltb_ge in Hlen. by rewrite Hlen, andb_false_r.
Qed.

Lemma select_loop_not_counted n p rest (seen : gset string) unique :
  str_lower (name p) ∉ seen → 3 < len (name p) → total_tracks p = None →
  select_loop n (p :: rest) seen unique = Raised "TypeError".
Proof.
  intros Hin Hlen Ht. cbn [select_loop].
  apply Nat.ltb_lt in Hlen. by rewrite bool_decide_eq_true_2, Hlen, Ht by done.
Qed.

Lemma select_loop_small n p rest (seen : gset string) unique total :
  total_tracks p = Some total → (total ≤ 10)%Z →
  select_loop n (p :: rest) seen unique = select_loop n rest seen unique.
Proof.
  intros Ht Hle. cbn [select_loop]. rewrite Ht.
  apply Z.ltb_ge in Hle. rewrite Hle. by destruct (_ && _).
Qed.

Lemma select_loop_accept n p rest (seen : gset string) unique :
  str_lower (name p) ∉ seen → quality_ok p = true →
  select_loop n (p :: rest) seen unique
  = if n <=? length (unique ++ [p])
    then Returned (seen ∪ {[ str_lower (name p) ]}, unique ++ [p])
    else select_loop n rest (seen ∪ {[ str_lower (name p) ]}) (unique ++ [p]).
Proof.
  intros Hin (Hlen & total & Ht & Hgt)%quality_ok_true. cbn [select_loop].
  apply Nat.ltb_lt in Hlen. apply Z.ltb_lt in Hgt.
  by rewrite bool_decide_eq_true_2, Hlen, Ht, Hgt by done.
Qed.

(** A candidate that fails the quality test is passed over, or, when it has
    no track count, makes the loop raise. *)
Lemma select_loop_reject n p rest (seen : gset string) unique :
  quality_ok p = false →
  select_loop n (p :: rest) seen unique = select_loop n rest seen unique
  ∨ select_loop n (p :: rest) seen unique = Raised "TypeError" ∧ ¬ counted p.
Proof.
  intros Hq.
  destruct (decide (str_lower (name p) ∈ seen)) as [Hin|Hin].
  { left. by apply select_loop_seen_name. }
  destruct (decide (len (name p) ≤ 3)) as [Hlen|Hlen].
  { left. by apply select_loop_short_name. }
  destruct (total_tracks p) as [total|] eqn:Ht.
  - left. apply (select_loop_small _ _ _ _ _ total); [done|].
    apply (quality_ok_false _ _ Ht) in Hq. lia.
  - right. split; [apply select_loop_not_counted; [done|lia|done]|].
    unfold counted. rewrite Ht. by intros [? ?].
Qed.

(** When the loop returns, it has computed the first occurrences, by
    lower-cased name, among the candidates that pass the quality test,
    until [n] are kept. *)
Lemma select_loop_unique n all seen unique seen' unique' :
  length unique < n →
  select_loop n all seen unique = Returned (seen', unique') →
  unique'
  = unique ++ take (n - length unique) (first_by_name seen (filter quality_ok all)).
Proof.
  revert seen unique. induction all as [|p rest IH]; intros seen unique Hlt.
  { simpl. intros [= <- <-]. by rewrite take_nil, app_nil_r. }
  destruct (quality_ok p) eqn:Hq.
  - rewrite filter_cons_True by (by rewrite Hq). cbn [first_by_name].
    destruct (decide (str_lower (name p) ∈ seen)) as [Hin|Hin].
    + rewrite select_loop_seen_name by done.
      rewrite bool_decide_eq_true_2 by done. by apply IH.
    + rewrite select_loop_accept by done.
      rewrite bool_decide_eq_false_2 by done.
      rewrite length_app. simpl.
      destruct (n <=? length unique + 1) eqn:Hn.
      * apply Nat.leb_le in Hn. intros [= <- <-].
        replace (n - length unique) with 1 by lia. done.
      * apply Nat.leb_gt in Hn. intros Hloop.
        apply IH in Hloop; [|rewrite length_app; simpl; lia].
        rewrite Hloop, length_app. simpl.
        replace (n - length unique) with (S (n - (length unique + 1))) by lia.
        simpl. by rewrite <- app_assoc.
  - rewrite filter_cons_False by (rewrite Hq; by intros []).
    destruct (select_loop_reject n p rest seen unique Hq) as [->|[-> _]]; [|done].
    by apply IH.
Qed.

(** The loop raises only at a candidate without a track count. *)
Lemma select_loop_counted n all seen unique :
  Forall counted all → ∃ result, select_loop n all seen unique = Returned result.
Proof.
  revert seen unique. induction all as [|p rest IH]; intros seen unique Hall.
  { by eexists. }
  apply Forall_cons in Hall as [Hp Hrest].
  destruct (quality_ok p) eqn:Hq.
  - destruct (decide (str_lower (name p) ∈ seen)) as [Hin|Hin].
    + rewrite select_loop_seen_name by done. by apply IH.
    + rewrite select_loop_accept by done.
      destruct (_ <=? _); [by eexists|by apply IH].
  - destruct (select_loop_reject n p rest seen unique Hq) as [->|[_ ?]]; [|done].
    by apply IH.
Qed.

Lemma select_cases n all :
  select n all = []
  ∨ select n all = take n (first_by_name ∅ (filter quality_ok all)).
Proof.
  unfold select. destruct n as [|n].
  { left. by destruct (select_loop _ _ _ _) as [[? ?]|]. }
  destruct (select_loop _ _ _ _) as [[seen unique]|] eqn:Hloop; [|by left].
  right. apply select_loop_unique in Hloop; [|simpl; lia].
  rewrite Hloop. simpl length. rewrite Nat.sub_0_r. simpl app. apply take_idemp.
Qed.

Lemma select_spec n all :
  Forall counted all →
  select n all = take n (first_by_name ∅ (filter quality_ok all)).
Proof.
  intros Hall. destruct n as [|n].
  { unfold select. by destruct (select_loop _ _ _ _) as [[? ?]|]. }
  unfold select.
  destruct (select_loop_counted (S n) all ∅ [] Hall) as [[seen unique] Hloop].
  rewrite Hloop. apply select_loop_unique in Hloop; [|simpl; lia].
  rewrite Hloop. simpl length. rewrite Nat.sub_0_r. simpl app. apply take_idemp.
Qed.

(** [seen_names] holds the lower-cased names of the candidates kept. *)
Lemma select_loop_seen n all seen unique seen' unique' :
  seen = names_of unique →
  select_loop n all seen unique = Returned (seen', unique') →
  seen' = names_of unique'.
Proof.
  revert seen unique. induction all as [|p rest IH]; intros seen unique Hs.
  { simpl. by intros [= <- <-]. }
  destruct (quality_ok p) eqn:Hq.
  - destruct (decide (str_lower (name p) ∈ seen)) as [Hin|Hin].
    + rewrite select_loop_seen_name by done. by apply IH.
    + rewrite select_loop_accept by done.
      destruct (_ <=? _).
      * intros [= <- <-]. by rewrite names_of_snoc, Hs.
      * apply IH. by rewrite names_of_snoc, Hs.
  - destruct (select_loop_reject n p rest seen unique Hq) as [->|[-> _]]; [|done].
    by apply IH.
Qed.



Lemma first_by_name_sublist (seen : gset string) l : first_by_name seen l `sublist_of` l.
Proof.
  revert seen. induction l as [|p l IH]; intros seen; simpl; [done|].
  case_bool_decide; [apply sublist_cons|apply sublist_skip]; apply IH.
Qed.

Lemma first_by_name_fresh seen l p :
  p ∈ first_by_name seen l → str_lower (name p) ∉ seen.
Proof.
  revert seen. induction l as [|x l IH]; intros seen; simpl.
  { by intros ?%elem_of_nil. }
  case_bool_decide as Hx; [apply IH|].
  intros [->|Hp]%elem_of_cons; [done|].
  apply IH in Hp. set_solver.
Qed.

Lemma first_by_name_NoDup seen l :
  NoDup ((λ p, str_lower (name p)) <$> first_by_name seen l).
Proof.
  revert seen. induction l as [|x l IH]; intros seen; simpl.
  { constructor. }
  case_bool_decide as Hx; [apply IH|].
  rewrite fmap_cons. constructor; [|apply IH].
  intros (q & Hq & Hin)%list_elem_of_fmap.
  apply first_by_name_fresh in Hin. set_solver.
Qed.

Lemma first_by_name_app seen a b :
  first_by_name seen (a ++ b)
  = first_by_name seen a ++ first_by_name (seen ∪ names_of a) b.
Proof.
  revert seen. induction a as [|x a IH]; intros seen; simpl.
  { unfold names_of. simpl. by rewrite (right_id_L ∅ (∪)). }
  rewrite names_of_cons. case_bool_decide as Hx.
  - rewrite IH. do 2 f_equal. set_solver.
  - rewrite IH. simpl. do 3 f_equal. set_solver.
Qed.

(** Every name met is in the result or was seen before. *)
Lemma first_by_name_covers seen l p :
  p ∈ l →
  str_lower (name p) ∈ seen
  ∨ ∃ q, q ∈ first_by_name seen l ∧ str_lower (name q) = str_lower (name p).
Proof.
  revert seen. induction l as [|x l IH]; intros seen.
  { by intros ?%elem_of_nil. }
  simpl. intros [->|Hp]%elem_of_cons.
  - case_bool_decide; [by left|]. right. exists x. split; [by left|done].
  - case_bool_decide as Hx.
    + destruct (IH seen Hp) as [?|(q & ? & ?)]; [by left|right; eauto].
    + destruct (IH (seen ∪ {[str_lower (name x)]}) Hp) as [Hin|(q & ? & ?)].
      * apply elem_of_union in Hin as [?|Heq%elem_of_singleton]; [by left|].
        right. exists x. split; [by left|done].
      * right. exists q. split; [by right|done].
Qed.

(** What holds of the result whether the loop returns or raises. *)
Lemma select_sublist n all : select n all `sublist_of` all.
Proof.
  destruct (select_cases n all) as [->| ->]; [apply sublist_nil_l|].
  etrans; [apply sublist_take|]. etrans; [apply first_by_name_sublist|].
  apply sublist_filter.
Qed.

Lemma select_NoDup n all : NoDup ((λ p, str_lower (name p)) <$> select n all).
Proof.
  destruct (select_cases n all) as [->| ->]; [constructor|].
  rewrite fmap_take.
  eapply sublist_NoDup; [apply first_by_name_NoDup|apply sublist_take].
Qed.

Lemma select_quality n all p : p ∈ select n all → quality_ok p = true.
Proof.
  destruct (select_cases n all) as [->| ->]; [by intros ?%elem_of_nil|].
  intros Hp.
  assert (Hin : p ∈ first_by_name ∅ (filter quality_ok all)).
  { eapply elem_of_submseteq; [exact Hp|apply submseteq_take]. }
  eapply elem_of_submseteq in Hin;
    [|apply sublist_submseteq, first_by_name_sublist].
  apply list_elem_of_filter in Hin as [Hq _]. by destruct (quality_ok p).
Qed.

Lemma select_length n all : length (select n all) ≤ n.
Proof.
  destruct (select_cases n all) as [->| ->]; [simpl; lia|].
  rewrite length_take. lia.
Qed.

Lemma get_playlists_by_mood_ready c mood n :
  ∃ all queries,
    get_playlists_by_mood {| client := Some c |} mood n = (select n all, queries).
Proof.
  unfold get_playlists_by_mood. simpl.
  destruct (gather _ _ _ _ _) as [all queries]. eauto.
Qed.

End SpotifyFacts.

Section SpotifyClaims.
Import PyStr Spotify SpecWords.
Context {U : PyUnicode}.

(** C6: when the client is None (the adapter is Unavailable),
    [get_playlists_by_mood] returns the empty list and sends no search
    query, for every mood, the empty string and None included, and every
    count. The function of the model is total: no exception is raised. *)
Theorem get_playlists_by_mood_unavailable self mood n :
  client self = None →
  get_playlists_by_mood self mood n = ([], []).
Proof. intros H. unfold get_playlists_by_mood. by rewrite H. Qed.

(** [_initialize_client] leaves the client None when a credential is
    missing or empty, when the constructor raises and when the test search
    raises. *)
Lemma _initialize_client_unavailable id secret connect :
  truthy id = false ∨ truthy secret = false
  ∨ (∀ i s, connect i s = None)
  ∨ (∀ i s c, connect i s = Some c → search c "test" "track" 1 = None) →
  client (_initialize_client id secret connect) = None.
Proof.
  intros H. unfold _initialize_client.
  destruct id as [i|], secret as [s|]; try done.
  destruct (truthy (Some i)) eqn:Hi, (truthy (Some s)) eqn:Hs; try done. simpl.
  destruct H as [?|[?|[H|H]]]; try done.
  - by rewrite H.
  - destruct (connect i s) as [c|] eqn:Hc; [|done].
    by rewrite (H _ _ _ Hc).
Qed.



(** C8: for a candidate with an integer track count the quality test fails
    exactly for a name of at most 3 characters (code points) or at most 10
    tracks; no candidate that fails it is returned, and such candidates
    have no effect on the result; a candidate that passes it is left out
    only for a name already kept or by the cut at [n]. At the boundary:
    alone in the list, a candidate with a name of 4 characters and 11
    tracks is returned, one with a name of 3 characters or with 10 tracks
    is not. *)
Theorem select_quality_filter n all :
  (∀ p total, total_tracks p = Some total →
      quality_ok p = false ↔ len (name p) ≤ 3 ∨ (total ≤ 10)%Z)
  ∧ (∀ p, p ∈ select n all →
      3 < len (name p) ∧ ∃ total, total_tracks p = Some total ∧ (10 < total)%Z)
  ∧ (Forall counted all → select n all = select n (filter quality_ok all))
  ∧ (∀ p, Forall counted all → p ∈ all → quality_ok p = true → length all ≤ n →
        ∃ q, q ∈ select n all ∧ str_lower (name q) = str_lower (name p))
  ∧ (∀ p, 0 < n → select n [p] = if quality_ok p then [p] else [])
  ∧ (∀ p, 0 < n → len (name p) = 4 → total_tracks p = Some 11%Z → select n [p] = [p])
  ∧ (∀ p, len (name p) = 3 ∨ total_tracks p = Some 10%Z → select n [p] = []).
Proof.
  assert (Hone : ∀ p, 0 < n → select n [p] = if quality_ok p then [p] else []).
  { intros p Hn. unfold select. destruct (quality_ok p) eqn:Hq.
    - rewrite select_loop_accept by (set_solver || done). simpl.
      destruct n as [|[|n]]; [lia|done|done].
    - destruct (select_loop_reject n p [] ∅ [] Hq) as [->|[-> _]]; [|done].
      simpl. apply take_nil. }
  split_and!.
  - apply quality_ok_false.
  - intros p Hp. apply quality_ok_true. by eapply select_quality.
  - intros Hall. rewrite (select_spec n all Hall).
    rewrite (select_spec n (filter quality_ok all)).
    { by rewrite list_filter_filter_l. }
    apply Forall_forall. intros p [Hq _]%list_elem_of_filter.
    apply quality_ok_counted. by destruct (quality_ok p).
  - intros p Hall Hp Hq Hlen. rewrite select_spec by done.
    assert (Hin : p ∈ filter quality_ok all).
    { apply list_elem_of_filter. split; [by rewrite Hq|done]. }
    destruct (first_by_name_covers ∅ _ _ Hin) as [?|(q & Hq' & Hnm)]; [set_solver|].
    exists q. split; [|done]. rewrite take_ge; [done|].
    etrans; [apply sublist_length, first_by_name_sublist|].
    etrans; [apply length_filter|done].
  - done.
  - intros p Hn Hl Ht. rewrite Hone by done.
    assert (quality_ok p = true) as ->; [|done].
    apply quality_ok_true. split; [lia|]. exists 11%Z. split; [done|lia].
  - intros p Hp. destruct n as [|n].
    { unfold select. by destruct (select_loop _ _ _ _) as [[? ?]|]. }
    rewrite Hone by lia.
    destruct (quality_ok p) eqn:Hq; [|done].
    apply quality_ok_true in Hq as (Hlen & total & Ht & Hgt).
    destruct Hp as [Hp|Hp]; [lia|]. rewrite Hp in Ht. simplify_eq. lia.
Qed.

(** C10: among candidates whose track counts are integers, a candidate
    that passes the quality test is kept although candidates of the same
    name up to case came before it, when all of those fail the quality
    test and fewer than [n] candidates were kept before it: it comes right
    after the candidates kept from the part of the list before it. The set
    [seen_names] of the loop holds the lower-cased names of the candidates
    kept and no other name. *)
Theorem rejected_candidate_frees_name n l1 q l2 :
  Forall counted (l1 ++ q :: l2) →
  quality_ok q = true →
  (∀ p, p ∈ l1 → str_lower (name p) = str_lower (name q) → quality_ok p = false) →
  length (select n l1) < n →
  select n (l1 ++ q :: l2) !! length (select n l1) = Some q
  ∧ q ∈ select n (l1 ++ q :: l2)
  ∧ (∀ all seen unique,
        select_loop n all ∅ [] = Returned (seen, unique) → seen = names_of unique).
Proof.
  intros Hall Hq Hl1 Hroom.
  assert (Hall1 : Forall counted l1) by (by apply Forall_app in Hall as [? _]).
  assert (Hat : select n (l1 ++ q :: l2) !! length (select n l1) = Some q).
  { rewrite select_spec in Hroom by done. rewrite length_take in Hroom.
    rewrite !select_spec, filter_app, first_by_name_app by done.
    rewrite filter_cons_True by (by rewrite Hq). simpl.
    rewrite bool_decide_eq_false_2.
    - rewrite length_take, Nat.min_r by lia.
      rewrite lookup_take_lt by lia. by apply list_lookup_middle.
    - intros [Hin|Hin]%elem_of_union; [set_solver|].
      apply elem_of_names_of in Hin as (p & [Hp Hpin]%list_elem_of_filter & Hnm).
      rewrite (Hl1 p Hpin Hnm) in Hp. done. }
  split_and!.
  - done.
  - by eapply list_elem_of_lookup_2.
  - intros all seen unique. by apply select_loop_seen.
Qed.

End SpotifyClaims.

(** The examples of the claims on the playlist adapter. *)

Section SpotifyExamples.
Import PyStr Spotify SpecWords.


Lemma get_playlists_by_mood_unavailable_witness :
  client (_initialize_client None (Some "secret") (λ _ _, None)) = None
  ∧ get_playlists_by_mood (U := ascii_tables)
      (_initialize_client None (Some "secret") (λ _ _, None)) None 5
    = ([], [])
  ∧ get_playlists_by_mood (U := ascii_tables)
      (_initialize_client None (Some "secret") (λ _ _, None)) (Some "") 5
    = ([], []).
Proof.
  split; [reflexivity|]. split.
  - apply (get_playlists_by_mood_unavailable _ None 5). reflexivity.
  - apply (get_playlists_by_mood_unavailable _ (Some "") 5). reflexivity.
Defined.



Lemma select_quality_filter_witness :
  select (U := ascii_tables) 5 [happy_vibes] = [happy_vibes]
  ∧ (3 < len (name happy_vibes)
     ∧ ∃ total, total_tracks happy_vibes = Some total ∧ (10 < total)%Z).
Proof.
  split; [reflexivity|].
  apply (select_quality_filter (U := ascii_tables) 5 [happy_vibes]). vm_compute. left.
Defined.

Lemma rejected_candidate_frees_name_witness :
  quality_ok happy_vibes_small = false
  ∧ str_lower (PyUnicode := ascii_tables) (name happy_vibes_small)
    = str_lower (PyUnicode := ascii_tables) (name happy_vibes_lower)
  ∧ select (U := ascii_tables) 5 ([happy_vibes_small] ++ happy_vibes_lower :: [happy_vibes])
      !! length (select (U := ascii_tables) 5 [happy_vibes_small])
    = Some happy_vibes_lower.
Proof.
  split; [reflexivity|]. split; [reflexivity|].
  apply (rejected_candidate_frees_name (U := ascii_tables) 5
           [happy_vibes_small] happy_vibes_lower [happy_vibes]).
  - repeat constructor; by eexists.
  - reflexivity.
  - intros p Hp _. apply list_elem_of_singleton in Hp. rewrite Hp. reflexivity.
  - vm_compute. lia.
Defined.

End SpotifyExamples.


(** * Further properties of the code *)

(** ** Strings: how [lower], [strip] and [split] combine *)

Section MoreStringFacts.
Import PyStr.

Lemma is_space_lower_ascii c : is_space (lower_ascii c) = is_space c.
Proof. by destruct c as [[] [] [] [] [] [] [] []]. Qed.

Lemma lower_app a b : lower (a +:+ b) = lower a +:+ lower b.
Proof. induction a as [|c a IH]; simpl; [done|]. by rewrite IH. Qed.

Lemma lower_eq_empty s : lower s = "" ↔ s = "".
Proof. by destruct s. Qed.

Lemma lower_lstrip s : lower (lstrip s) = lstrip (lower s).
Proof.
  induction s as [|c s IH]; simpl; [done|].
  rewrite is_space_lower_ascii. by destruct (is_space c).
Qed.

Lemma lower_rstrip s : lower (rstrip s) = rstrip (lower s).
Proof.
  induction s as [|c s IH]; simpl; [done|].
  rewrite <- IH, is_space_lower_ascii.
  destruct (rstrip s) as [|c' r']; simpl; [|done].
  by destruct (is_space c).
Qed.

Lemma lower_strip s : lower (strip s) = strip (lower s).
Proof. unfold strip. by rewrite lower_rstrip, lower_lstrip. Qed.

Lemma lstrip_idemp s : lstrip (lstrip s) = lstrip s.
Proof.
  induction s as [|c s IH]; simpl; [done|].
  destruct (is_space c) eqn:Hc; [done|]. simpl. by rewrite Hc.
Qed.

Lemma rstrip_idemp s : rstrip (rstrip s) = rstrip s.
Proof.
  induction s as [|c s IH]; simpl; [done|].
  destruct (rstrip s) as [|c' r'] eqn:Hr.
  - destruct (is_space c) eqn:Hc; simpl; [done|]. by rewrite Hc.
  - change (rstrip (String c (String c' r')) = String c (String c' r')).
    cbn [rstrip] in *. by rewrite IH.
Qed.

Lemma lstrip_length s : String.length (lstrip s) ≤ String.length s.
Proof.
  induction s as [|c s IH]; simpl; [done|].
  destruct (is_space c); simpl; lia.
Qed.

(** [rstrip] keeps a first character that is not a space. *)
Lemma lstrip_rstrip s : lstrip s = s → lstrip (rstrip s) = rstrip s.
Proof.
  destruct s as [|c s]; [done|]. simpl.
  destruct (is_space c) eqn:Hc.
  - intros H. apply (f_equal String.length) in H. simpl in H.
    pose proof (lstrip_length s). lia.
  - intros _. destruct (rstrip s); simpl; by rewrite Hc.
Qed.

Lemma strip_idemp s : strip (strip s) = strip s.
Proof.
  unfold strip. rewrite (lstrip_rstrip (lstrip s)) by apply lstrip_idemp.
  apply rstrip_idemp.
Qed.

Lemma lstrip_space s : lstrip (" " +:+ s) = lstrip s.
Proof. done. Qed.

Lemma isascii_lower s : isascii s = true → isascii (lower s) = true.
Proof.
  induction s as [|c s IH]; simpl; [done|].
  intros [Hc Hs]%andb_true_iff. rewrite IH by done.
  rewrite andb_true_r. revert Hc. by destruct c as [[] [] [] [] [] [] [] []].
Qed.

Lemma isascii_lstrip s : isascii s = true → isascii (lstrip s) = true.
Proof.
  induction s as [|c s IH]; simpl; [done|].
  intros H. destruct (is_space c); [|done].
  apply andb_true_iff in H as [_ H]. by apply IH.
Qed.

Lemma isascii_rstrip s : isascii s = true → isascii (rstrip s) = true.
Proof.
  induction s as [|c s IH]; simpl; [done|].
  intros [Hc Hs]%andb_true_iff. specialize (IH Hs).
  destruct (rstrip s) as [|c' r'].
  - destruct (is_space c); simpl; [done|]. by rewrite Hc.
  - change (isascii (String c (String c' r')) = true). simpl in *.
    by rewrite Hc, IH.
Qed.

Lemma isascii_strip s : isascii s = true → isascii (strip s) = true.
Proof. intros H. by apply isascii_rstrip, isascii_lstrip. Qed.

End MoreStringFacts.

(** ** The ranker and the catalog: further properties *)

Section MoreRankerFacts.
Import PyStr Recommender Utils.

Lemma size_tag_sets (A B : gset string) : size (A ∩ B) ≤ size (A ∪ B).
Proof. apply subseteq_size. set_solver. Qed.

Lemma tag_set_not_empty tags : tags <> [] → 0 < size (tag_set tags).
Proof.
  intros H. destruct tags as [|t tags]; [done|].
  assert (size (tag_set (t :: tags)) <> 0); [|lia].
  rewrite size_empty_iff. unfold tag_set. set_solver.
Qed.

Lemma Qdiv_nat a b :
  (inject_Z (Z.of_nat a) / inject_Z (Z.of_nat (S b))
   == Z.of_nat a # Pos.of_succ_nat b)%Q.
Proof.
  change (Z.of_nat (S b)) with (Z.pos (Pos.of_succ_nat b)).
  unfold Qdiv, Qinv, Qmult, Qeq, inject_Z. simpl. lia.
Qed.

Lemma Qdiv_nat_le_1 a b : a ≤ b → 0 < b →
  (0 <= inject_Z (Z.of_nat a) / inject_Z (Z.of_nat b))%Q
  ∧ (inject_Z (Z.of_nat a) / inject_Z (Z.of_nat b) <= 1)%Q.
Proof.
  intros Hab Hb. destruct b as [|b]; [lia|]. rewrite Qdiv_nat.
  unfold Qle. simpl. rewrite Zpos_P_of_succ_nat. lia.
Qed.

Lemma Qdiv_nat_eq_1 a b : 0 < b →
  (inject_Z (Z.of_nat a) / inject_Z (Z.of_nat b) == 1)%Q ↔ a = b.
Proof.
  intros Hb. destruct b as [|b]; [lia|]. rewrite Qdiv_nat.
  unfold Qeq. simpl. rewrite Zpos_P_of_succ_nat. lia.
Qed.

Lemma Qdiv_nat_eq_0 a b : 0 < b →
  (inject_Z (Z.of_nat a) / inject_Z (Z.of_nat b) == 0)%Q ↔ a = 0.
Proof.
  intros Hb. destruct b as [|b]; [lia|]. rewrite Qdiv_nat.
  unfold Qeq. simpl. lia.
Qed.

(** X3: for the tags of an emotion of the vocabulary the score before the
    perturbation lies in [0, 1]; it is 1 exactly when the product's tag set
    is the emotion's tag set and 0 exactly when the two share no tag. With
    draws from [-0.1, 0.1) every perturbed score lies in [-0.1, 1.1). *)
Theorem jaccard_range e tags p :
  emotion_mapping !! e = Some tags →
  (0 <= jaccard tags p)%Q ∧ (jaccard tags p <= 1)%Q
  ∧ ((jaccard tags p == 1)%Q ↔ tag_set (product_tags p) = tag_set tags)
  ∧ ((jaccard tags p == 0)%Q ↔ tag_set tags ∩ tag_set (product_tags p) = ∅)
  ∧ (∀ rs df start, uniform_in_range rs →
        Forall (λ s, (- (1 # 10) <= s)%Q ∧ (s < 11 # 10)%Q)
               (scores rs tags start df)).
Proof.
  intros He. apply emotion_tags_not_nil in He.
  assert (Hrange : ∀ q, (0 <= jaccard tags q)%Q ∧ (jaccard tags q <= 1)%Q).
  { intros q. unfold jaccard. apply Qdiv_nat_le_1; [apply size_tag_sets|].
    eapply Nat.lt_le_trans; [by apply tag_set_not_empty|].
    apply subseteq_size. set_solver. }
  assert (Hpos : 0 < size (tag_set tags ∪ tag_set (product_tags p))).
  { eapply Nat.lt_le_trans; [by apply tag_set_not_empty|].
    apply subseteq_size. set_solver. }
  split_and!; try apply Hrange.
  - unfold jaccard. rewrite Qdiv_nat_eq_1 by done. split.
    + intros Hsz.
      assert (tag_set tags ∩ tag_set (product_tags p)
              = tag_set tags ∪ tag_set (product_tags p)) as Heq.
      { apply set_subseteq_size_eq; [set_solver|lia]. }
      set_solver.
    + intros ->. f_equal. set_solver.
  - unfold jaccard. rewrite Qdiv_nat_eq_0 by done.
    rewrite size_empty_iff. by unfold_leibniz.
  - intros rs df start Hu. revert start.
    induction df as [|q df IH]; intros start; simpl; constructor; [|apply IH].
    destruct (Hu start) as [Hlo Hhi]. destruct (Hrange q) as [H0 H1]. lra.
Qed.

Lemma jaccard_range_witness :
  (0 <= jaccard happy_tags headphones)%Q ∧ (jaccard happy_tags headphones <= 1)%Q.
Proof.
  destruct (jaccard_range "happy" happy_tags headphones) as (H0 & H1 & _).
  - vm_compute. reflexivity.
  - split; [exact H0|exact H1].
Defined.

Lemma sample_fmap {A B} (f : A → B) draws k (rows : list A) :
  sample draws k (f <$> rows) = f <$> sample draws k rows.
Proof.
  revert draws rows. induction k as [|k IH]; intros draws rows; simpl; [done|].
  rewrite length_fmap, list_lookup_fmap.
  destruct (rows !! _) as [r|] eqn:Hr; simpl; [|done].
  f_equal. rewrite <- IH. f_equal.
  rewrite !delete_take_drop, fmap_app, fmap_take, fmap_drop. done.
Qed.

(** X4: for a label that is not a key once lower-cased, the result is a
    sample of exactly min(n, |C|) rows of the catalog, no row taken more
    often than the catalog has it (so without duplicate ids when the ids of
    the catalog are distinct); for n ≥ |C| it is the whole catalog in some
    order. The content of the rows plays no part in the choice: changing
    every row by a function changes the result by that function. *)
Theorem sample_for_unknown_label rs e C n :
  emotion_mapping !! lower e = None →
  let r := get_recommendations rs (Some C) e n in
  length r = min n (length C)
  ∧ r ⊆+ C
  ∧ (NoDup (product_id <$> C) → NoDup (product_id <$> r))
  ∧ (length C ≤ n → r ≡ₚ C)
  ∧ (∀ f : product → product,
        get_recommendations rs (Some (f <$> C)) e n = f <$> r).
Proof.
  intros He r. unfold r. rewrite sampled_result_eq by done.
  assert (Hsub := sample_submseteq (choice rs) (min n (length C)) C).
  assert (Hlen := sample_length (choice rs) (min n (length C)) C).
  split_and!; try done.
  - lia.
  - intros Hnd.
    apply submseteq_sublist_l in Hsub as (C' & Hsl & Hperm).
    eapply sublist_NoDup; [|by apply fmap_sublist].
    by rewrite Hperm.
  - intros Hn. apply submseteq_length_Permutation; [done|]. lia.
  - intros f. rewrite sampled_result_eq by done.
    by rewrite length_fmap, sample_fmap.
Qed.

Lemma sample_for_unknown_label_witness :
  length (get_recommendations rs_pick1 (Some sample_products) "bored" 5) = 2.
Proof.
  destruct (sample_for_unknown_label rs_pick1 "bored" sample_products 5)
    as (H & _).
  - vm_compute. reflexivity.
  - exact H.
Defined.

(** X5: [get_product_by_id] returns the first row whose product_id is the
    id asked for, and None exactly when the frame is absent or no row has
    that id. *)
Theorem get_product_by_id_first self id :
  match get_product_by_id self id with
  | Some p =>
      ∃ df i, products_df self = Some df ∧ df !! i = Some p
              ∧ product_id p = Some id
              ∧ ∀ j q, j < i → df !! j = Some q → product_id q <> Some id
  | None =>
      ∀ df p, products_df self = Some df → p ∈ df → product_id p <> Some id
  end.
Proof.
  unfold get_product_by_id. destruct (products_df self) as [df|]; [|done].
  induction df as [|r df IH]; simpl.
  { intros df p [= <-]. by intros ?%elem_of_nil. }
  case_bool_decide as Hr.
  - exists (r :: df), 0. split_and!; try done. intros j q Hj. lia.
  - destruct (find _ df) as [p|].
    + destruct IH as (df' & i & [= <-] & Hi & Hp & Hfirst).
      exists (r :: df), (S i). split_and!; try done.
      intros [|j] q Hj Hq; simpl in Hq.
      * by injection Hq as <-.
      * apply (Hfirst j); [lia|done].
    + intros df' p [= <-] [->|Hp]%elem_of_cons; [done|].
      by apply (IH df).
Qed.

(** X6: [add_product] never changes the answer of [get_product_by_id] for
    an id that was found before (a row added with an id already present
    stays hidden behind the older row), and an id not found before is found
    afterwards exactly when it is the id of the added row. *)
Theorem add_product_lookup self item id :
  get_product_by_id (add_product self item) id
  = match get_product_by_id self id with
    | Some p => Some p
    | None => if bool_decide (product_id item = Some id) then Some item else None
    end.
Proof.
  unfold get_product_by_id, add_product. cbn [products_df].
  destruct (products_df self) as [df|]; [|done].
  by rewrite find_snoc.
Qed.


End MoreRankerFacts.

(** ** The feedback summary and the display helpers *)

Section MoreUtilsFacts.
Import Utils.

Lemma distribution_total_insert (m : gmap string nat) e k :
  distribution_total (<[e := k]> m) + default 0 (m !! e)
  = k + distribution_total m.
Proof.
  unfold distribution_total.
  destruct (m !! e) as [k0|] eqn:He; simpl.
  - rewrite <- insert_delete_eq.
    rewrite map_fold_insert_L; [|intros; lia|apply lookup_delete_eq].
    rewrite (map_fold_delete_L _ _ e k0 m); [|intros; lia|done].
    cbv beta. lia.
  - rewrite map_fold_insert_L; [|intros; lia|done].
    cbv beta. lia.
Qed.

Lemma count_values_total l : distribution_total (count_values l) = length l.
Proof.
  induction l as [|e l IH]; simpl; [done|].
  pose proof (distribution_total_insert (count_values l) e
                (S (default 0 (count_values l !! e)))). lia.
Qed.

Lemma count_values_count l e :
  default 0 (count_values l !! e) = length (filter (λ x, x = e) l).
Proof.
  induction l as [|x l IH]; simpl; [done|].
  destruct (decide (x = e)) as [->|Hne].
  - rewrite lookup_insert_eq, filter_cons_True by done. simpl. by rewrite IH.
  - by rewrite lookup_insert_ne, filter_cons_False by done.
Qed.

Lemma filter_length_all {A} (P : A → Prop) `{!∀ x, Decision (P x)} l :
  length (filter P l) = length l → Forall P l.
Proof.
  induction l as [|x l IH]; [by constructor|].
  destruct (decide (P x)) as [Hx|Hx].
  - rewrite filter_cons_True by done. simpl. intros [= Hlen].
    constructor; [done|by apply IH].
  - rewrite filter_cons_False by done. simpl. intros Hlen.
    pose proof (length_filter P l). lia.
Qed.

Lemma filter_all {A} (P : A → Prop) `{!∀ x, Decision (P x)} l :
  Forall P l → filter P l = l.
Proof.
  induction 1 as [|x l Hx _ IH]; [done|].
  by rewrite filter_cons_True, IH by done.
Qed.

Lemma length_filter_fmap {A B} (f : A → B) (P : B → Prop)
    `{!∀ y, Decision (P y)} l :
  length (filter P (f <$> l)) = length (filter (λ x, P (f x)) l).
Proof.
  induction l as [|x l IH]; [done|]. rewrite fmap_cons.
  destruct (decide (P (f x))) as [Hx|Hx].
  - rewrite !filter_cons_True by done. simpl. by rewrite IH.
  - by rewrite !filter_cons_False by done.
Qed.

(** The cells of the emotion column that [value_counts] counts. *)
Lemma dropna_read_csv df :
  dropna (detected_emotion <$> read_csv df)
  = detected_emotion <$> filter (λ r, is_na (detected_emotion r) = false) df.
Proof.
  induction df as [|r df IH]; [done|].
  change (read_csv (r :: df))
    with (mkFeedback (timestamp r) (read_cell (detected_emotion r)) (confidence r)
            (rating r) (read_cell (feedback_text r)) (num_recommendations r)
          :: read_csv df).
  rewrite fmap_cons. cbn [detected_emotion]. unfold dropna in *.
  destruct (is_na (detected_emotion r)) eqn:Hna.
  - rewrite (filter_cons_False _ r) by (simpl; congruence).
    rewrite filter_cons_False; [done|].
    intros H. apply H. by apply read_cell_empty.
  - rewrite (filter_cons_True _ r) by done.
    rewrite filter_cons_True.
    + rewrite fmap_cons, read_cell_text by done. by f_equal.
    + rewrite read_cell_empty. congruence.
Qed.

Lemma export_feedback_summary_rows file s :
  export_feedback_summary file = Some s →
  ∃ r df, rows file = r :: df
          ∧ total_feedback s = length (r :: df)
          ∧ average_rating s = mean ((λ r, inject_Z (rating r)) <$> r :: df)
          ∧ emotion_distribution s
            = value_counts (detected_emotion <$> read_csv (r :: df))
          ∧ stat_mean (conf_stats s) = mean (confidence <$> r :: df)
          ∧ stat_min (conf_stats s) = series_min (confidence r) (confidence <$> r :: df)
          ∧ stat_max (conf_stats s) = series_max (confidence r) (confidence <$> r :: df).
Proof.
  destruct file as [| |[|r df]]; try done.
  unfold export_feedback_summary.
  change (read_csv (r :: df))
    with (mkFeedback (timestamp r) (read_cell (detected_emotion r)) (confidence r)
            (rating r) (read_cell (feedback_text r)) (num_recommendations r)
          :: read_csv df).
  intros [= <-]. exists r, df. cbn [rows total_feedback average_rating
    emotion_distribution conf_stats stat_mean stat_min stat_max confidence].
  rewrite !fmap_cons. cbn [confidence rating].
  rewrite (read_csv_column confidence) by done.
  rewrite (read_csv_column (λ r, inject_Z (rating r))) by done.
  split_and!; try done.
  simpl. by rewrite read_csv_length.
Qed.

(** X8: in a summary the counts of [emotion_distribution] add up to the
    number of logged rows whose emotion field is not read as a missing
    value, which is [total_feedback] when the log has no such row and less
    otherwise; a label that the file gives back as text is counted as often
    as rows hold it. *)
Theorem summary_distribution_total file s :
  export_feedback_summary file = Some s →
  let counted_rows := filter (λ r, is_na (detected_emotion r) = false) (rows file) in
  distribution_total (emotion_distribution s) = length counted_rows
  ∧ distribution_total (emotion_distribution s) ≤ total_feedback s
  ∧ (distribution_total (emotion_distribution s) = total_feedback s
     ↔ Forall (λ r, is_na (detected_emotion r) = false) (rows file))
  ∧ (∀ e, is_label e = true →
        default 0 (emotion_distribution s !! e)
        = length (filter (λ r, detected_emotion r = e) (rows file))).
Proof.
  intros (r0 & df & Hrows & Htot & _ & Hdist & _)%export_feedback_summary_rows.
  intros counted_rows. unfold counted_rows.
  rewrite Hdist, Htot, Hrows. unfold value_counts.
  rewrite dropna_read_csv, count_values_total, length_fmap.
  set (l := r0 :: df). split_and!.
  - done.
  - apply length_filter.
  - split.
    + apply filter_length_all.
    + intros Hall. f_equal. by apply filter_all.
  - intros e He%is_label_not_na.
    rewrite count_values_count, length_filter_fmap, list_filter_filter.
    f_equal. apply list_filter_iff.
    intros r. split; [by intros [? _]|]. intros Hr. split; [done|]. by rewrite Hr.
Qed.

Lemma summary_distribution_total_witness :
  ∃ s, export_feedback_summary
         (File [mkFeedback "2026-01-01T09:00:00.000000" "sad" (82 # 100) 4 "" 5;
                mkFeedback "2026-01-01T09:05:00.000000" "" (60 # 100) 3 "" 5])
       = Some s
       ∧ total_feedback s = 2
       ∧ distribution_total (emotion_distribution s) = 1.
Proof.
  eexists. split; [reflexivity|]. split; [reflexivity|].
  etrans.
  - apply (proj1 (summary_distribution_total
            (File [mkFeedback "2026-01-01T09:00:00.000000" "sad" (82 # 100) 4 "" 5;
                   mkFeedback "2026-01-01T09:05:00.000000" "" (60 # 100) 3 "" 5])
            _ eq_refl)).
  - reflexivity.
Defined.

Lemma Qsum_bounds lo hi l :
  Forall (λ x, (lo <= x)%Q ∧ (x <= hi)%Q) l →
  (lo * inject_Z (Z.of_nat (length l)) <= Qsum l)%Q
  ∧ (Qsum l <= hi * inject_Z (Z.of_nat (length l)))%Q.
Proof.
  induction 1 as [|x l [Hlo Hhi] _ [IHlo IHhi]].
  { simpl. split; rewrite Qmult_0_r; apply Qle_refl. }
  change (Qsum (x :: l)) with (x + Qsum l)%Q.
  change (length (x :: l)) with (S (length l)).
  rewrite Nat2Z.inj_succ. unfold Z.succ. rewrite inject_Z_plus.
  change (inject_Z 1) with 1%Q.
  set (n := inject_Z (Z.of_nat (length l))) in *.
  set (t := Qsum l) in *. split; nra.
Qed.

(** The mean of a column that is not empty lies between any two bounds of
    its values. *)
Lemma mean_bounds lo hi l :
  l <> [] → Forall (λ x, (lo <= x)%Q ∧ (x <= hi)%Q) l →
  (lo <= mean l)%Q ∧ (mean l <= hi)%Q.
Proof.
  intros Hne Hl. destruct (Qsum_bounds lo hi l Hl) as [Hlo Hhi].
  assert (Hpos : (0 < inject_Z (Z.of_nat (length l)))%Q).
  { change 0%Q with (inject_Z 0). rewrite <- Zlt_Qlt.
    destruct l; [done|]. simpl. lia. }
  unfold mean. split.
  - by apply Qle_shift_div_l.
  - by apply Qle_shift_div_r.
Qed.

Lemma series_min_spec x l :
  (series_min x l <= x)%Q
  ∧ Forall (λ y, (series_min x l <= y)%Q) l
  ∧ ((series_min x l == x)%Q ∨ Exists (λ y, (series_min x l == y)%Q) l).
Proof.
  unfold series_min. induction l as [|y l (IH1 & IH2 & IH3)]; simpl.
  { split_and!; [lra|constructor|left; lra]. }
  set (m := foldr Qmin x l) in *.
  assert (Hm : ((Qmin y m == y)%Q ∧ (y <= m)%Q) ∨ ((Qmin y m == m)%Q ∧ (m <= y)%Q)).
  { destruct (Q.min_spec y m) as [[Hlt Heq]|[Hle Heq]]; [left|right];
      split; try done; lra. }
  set (m' := Qmin y m) in *.
  split_and!.
  - destruct Hm as [[Heq Hle]|[Heq Hle]]; lra.
  - constructor; [destruct Hm as [[Heq Hle]|[Heq Hle]]; lra|].
    eapply Forall_impl; [exact IH2|]. simpl. intros z Hz.
    destruct Hm as [[Heq Hle]|[Heq Hle]]; lra.
  - destruct Hm as [[Heq Hle]|[Heq Hle]].
    + right. left. done.
    + destruct IH3 as [H|H]; [left; lra|right; right].
      eapply Exists_impl; [exact H|]. simpl. intros z Hz. lra.
Qed.

Lemma series_max_spec x l :
  (x <= series_max x l)%Q
  ∧ Forall (λ y, (y <= series_max x l)%Q) l
  ∧ ((series_max x l == x)%Q ∨ Exists (λ y, (series_max x l == y)%Q) l).
Proof.
  unfold series_max. induction l as [|y l (IH1 & IH2 & IH3)]; simpl.
  { split_and!; [lra|constructor|left; lra]. }
  set (m := foldr Qmax x l) in *.
  assert (Hm : ((Qmax y m == y)%Q ∧ (m <= y)%Q) ∨ ((Qmax y m == m)%Q ∧ (y <= m)%Q)).
  { destruct (Q.max_spec y m) as [[Hlt Heq]|[Hle Heq]]; [right|left];
      split; try done; lra. }
  set (m' := Qmax y m) in *.
  split_and!.
  - destruct Hm as [[Heq Hle]|[Heq Hle]]; lra.
  - constructor; [destruct Hm as [[Heq Hle]|[Heq Hle]]; lra|].
    eapply Forall_impl; [exact IH2|]. simpl. intros z Hz.
    destruct Hm as [[Heq Hle]|[Heq Hle]]; lra.
  - destruct Hm as [[Heq Hle]|[Heq Hle]].
    + right. left. done.
    + destruct IH3 as [H|H]; [left; lra|right; right].
      eapply Exists_impl; [exact H|]. simpl. intros z Hz. lra.
Qed.

(** X9: in a summary, min and max of the confidence are confidences of
    logged rows, and every logged confidence lies between them. *)
Theorem summary_confidence_stats file s :
  export_feedback_summary file = Some s →
  let st := conf_stats s in
  (stat_min st <= stat_max st)%Q
  ∧ (∀ r, r ∈ rows file →
        (stat_min st <= confidence r)%Q ∧ (confidence r <= stat_max st)%Q)
  ∧ (∃ r, r ∈ rows file ∧ (confidence r == stat_min st)%Q)
  ∧ (∃ r, r ∈ rows file ∧ (confidence r == stat_max st)%Q).
Proof.
  intros (r0 & df & Hrows & _ & _ & _ & _ & Hmin & Hmax)%export_feedback_summary_rows.
  intros st. unfold st. rewrite Hmin, Hmax, Hrows. clear.
  set (l := confidence <$> r0 :: df).
  destruct (series_min_spec (confidence r0) l) as (Hlo0 & Hlo & Hmin).
  destruct (series_max_spec (confidence r0) l) as (Hhi0 & Hhi & Hmax).
  assert (Hboth : Forall (λ x, (series_min (confidence r0) l <= x)%Q
                               ∧ (x <= series_max (confidence r0) l)%Q) l).
  { apply Forall_forall. intros x Hx.
    rewrite Forall_forall in Hlo, Hhi. split; [by apply Hlo|by apply Hhi]. }
  assert (Hatt : ∀ v, (v == confidence r0)%Q ∨ Exists (λ y, (v == y)%Q) l →
                      ∃ r, r ∈ r0 :: df ∧ (confidence r == v)%Q).
  { intros v [Hv|Hv].
    - exists r0. split; [by left|by symmetry].
    - apply Exists_exists in Hv as (y & (r & -> & Hr)%list_elem_of_fmap & Hy).
      exists r. split; [done|by symmetry]. }
  split_and!.
  - lra.
  - intros r Hr. rewrite Forall_forall in Hboth.
    apply Hboth. by apply list_elem_of_fmap_2.
  - by apply Hatt.
  - by apply Hatt.
Qed.

Lemma summary_confidence_stats_witness :
  ∃ s, export_feedback_summary
         (File [mkFeedback "2026-01-01T09:00:00.000000" "sad" (82 # 100) 4 "" 5;
                mkFeedback "2026-01-01T09:05:00.000000" "happy" (60 # 100) 3 "" 5])
       = Some s
       ∧ (stat_min (conf_stats s) <= stat_max (conf_stats s))%Q.
Proof.
  eexists. split; [reflexivity|].
  apply (proj1 (summary_confidence_stats
            (File [mkFeedback "2026-01-01T09:00:00.000000" "sad" (82 # 100) 4 "" 5;
                   mkFeedback "2026-01-01T09:05:00.000000" "happy" (60 # 100) 3 "" 5])
            _ eq_refl)).
Defined.

(** X10: when every logged rating lies between two bounds (1 and 5 for the
    ratings the page offers), so does [average_rating]. *)
Theorem summary_average_rating file s (lo hi : Z) :
  export_feedback_summary file = Some s →
  (∀ r, r ∈ rows file → (lo ≤ rating r ≤ hi)%Z) →
  (inject_Z lo <= average_rating s)%Q ∧ (average_rating s <= inject_Z hi)%Q.
Proof.
  intros (r0 & df & Hrows & _ & Havg & _)%export_feedback_summary_rows Hall.
  rewrite Havg. apply mean_bounds; [done|].
  apply Forall_fmap, Forall_forall. intros r Hr. simpl.
  rewrite <- !Zle_Qle. apply Hall. by rewrite Hrows.
Qed.

Lemma summary_average_rating_witness :
  ∃ s, export_feedback_summary
         (File [mkFeedback "2026-01-01T09:00:00.000000" "sad" (82 # 100) 4 "" 5;
                mkFeedback "2026-01-01T09:05:00.000000" "happy" (60 # 100) 3 "" 5])
       = Some s
       ∧ (inject_Z 1 <= average_rating s)%Q ∧ (average_rating s <= inject_Z 5)%Q.
Proof.
  eexists. split; [reflexivity|].
  eapply (summary_average_rating
            (File [mkFeedback "2026-01-01T09:00:00.000000" "sad" (82 # 100) 4 "" 5;
                   mkFeedback "2026-01-01T09:05:00.000000" "happy" (60 # 100) 3 "" 5])).
  - reflexivity.
  - intros r Hr. apply elem_of_cons in Hr as [Hr|Hr]; [rewrite Hr; simpl; lia|].
    apply list_elem_of_singleton in Hr. rewrite Hr. simpl. lia.
Defined.

(** X11: [export_feedback_summary] gives no summary exactly when the log
    has no row (no directory, no file, or a file without rows);
    [create_feedback_csv] keeps the rows of an existing file, does nothing
    when called again and leaves the summary as it was. After it
    [log_feedback] does not raise: it raises OSError exactly when the
    directory data/ is missing, which [create_feedback_csv] makes, and
    where the directory exists it behaves after [create_feedback_csv] as
    before. *)
Theorem summary_absent_iff_no_rows file :
  (export_feedback_summary file = None ↔ rows file = [])
  ∧ rows (create_feedback_csv file) = rows file
  ∧ create_feedback_csv (create_feedback_csv file) = create_feedback_csv file
  ∧ export_feedback_summary (create_feedback_csv file)
    = export_feedback_summary file
  ∧ (∀ clock e c r t k,
        log_feedback clock e c r t k (create_feedback_csv file)
        = Returned (File (read_csv (rows file)
                          ++ [mkFeedback (local_iso clock) e c r t k])))
  ∧ (∀ clock e c r t k,
        log_feedback clock e c r t k file = Raised "OSError" ↔ file = NoDirectory)
  ∧ (∀ clock e c r t k,
        file <> NoDirectory →
        log_feedback clock e c r t k (create_feedback_csv file)
        = log_feedback clock e c r t k file).
Proof.
  split_and!.
  - by destruct file as [| |[|r0 df]].
  - by destruct file.
  - by destruct file.
  - by destruct file as [| |[|r0 df]].
  - intros. by destruct file.
  - intros. by destruct file.
  - intros. by destruct file.
Qed.

Lemma log_all_Raised calls e :
  foldl (λ state call,
           match state with
           | Returned f =>
               log_feedback call.1 (detected_emotion call.2) (confidence call.2)
                 (rating call.2) (feedback_text call.2) (num_recommendations call.2) f
           | Raised e => Raised e
           end)
        (Raised e) calls = Raised e.
Proof. by induction calls. Qed.





End MoreUtilsFacts.

(** ** Labels: confidence levels, emoji, the fallback detector *)

Section LabelFacts.
Import PyStr Recommender Utils EmotionDetector.

Ltac case_thresholds :=
  repeat match goal with
         | |- context [Qle_bool ?a ?b] =>
             let H := fresh "Hq" in
             destruct (Qle_bool a b) eqn:H;
             [apply Qle_bool_iff in H
             |apply not_true_iff_false in H; rewrite Qle_bool_iff in H]
         end.

(** X13: [calculate_emotion_confidence_level] is monotone: a higher
    confidence never gets a lower level; the level counts the thresholds
    0.3, 0.5, 0.7 and 0.9 that the confidence reaches. *)
Theorem confidence_level_monotone c1 c2 :
  (c1 <= c2)%Q →
  level_rank (calculate_emotion_confidence_level c1)
  ≤ level_rank (calculate_emotion_confidence_level c2)
  ∧ (1 ≤ level_rank (calculate_emotion_confidence_level c1) ↔ (3 # 10 <= c1)%Q)
  ∧ (2 ≤ level_rank (calculate_emotion_confidence_level c1) ↔ (5 # 10 <= c1)%Q)
  ∧ (3 ≤ level_rank (calculate_emotion_confidence_level c1) ↔ (7 # 10 <= c1)%Q)
  ∧ (4 ≤ level_rank (calculate_emotion_confidence_level c1) ↔ (9 # 10 <= c1)%Q).
Proof.
  intros Hle. unfold calculate_emotion_confidence_level.
  case_thresholds; change (level_rank "Very High") with 4;
    change (level_rank "High") with 3; change (level_rank "Medium") with 2;
    change (level_rank "Low") with 1; change (level_rank "Very Low") with 0;
    split_and!; try lia; try (exfalso; lra);
    split; intros; try lia; try lra.
Qed.

Lemma confidence_level_monotone_witness :
  level_rank (calculate_emotion_confidence_level (5 # 10))
  ≤ level_rank (calculate_emotion_confidence_level (82 # 100)).
Proof.
  apply (confidence_level_monotone (5 # 10) (82 # 100)).
  unfold Qle. simpl. lia.
Defined.

Lemma emotion_emoji_not_default e v : emotion_emoji !! e = Some v → v <> "🤔".
Proof.
  intros H%elem_of_list_to_map_2.
  repeat (apply elem_of_cons in H as [[= -> ->]|H]; [done|]).
  by apply elem_of_nil in H.
Qed.

Lemma dom_emotion_mapping : dom emotion_mapping = list_to_set emotions.
Proof. unfold emotion_mapping. by rewrite dom_list_to_map_L. Qed.

Lemma same_vocabulary : dom emotion_emoji = dom emotion_mapping.
Proof.
  rewrite dom_emotion_mapping. unfold emotion_emoji.
  by rewrite dom_list_to_map_L.
Qed.

Lemma dom_all_emotions (e0 : string) (c0 : Q) :
  e0 ∈ emotions →
  dom (<[e0 := c0]> (list_to_map ((λ e, (e, (1 # 10)%Q)) <$> emotions)
                       : gmap string Q))
  = dom emotion_mapping.
Proof.
  intros He. rewrite dom_insert_L, dom_list_to_map_L, dom_emotion_mapping.
  replace (((λ e : string, (e, (1 # 10)%Q)) <$> emotions).*1) with emotions
    by reflexivity.
  apply subseteq_union_1_L. by apply singleton_subseteq_l, elem_of_list_to_set.
Qed.

Lemma available_emotions_vocabulary deepface_available :
  list_to_set (get_available_emotions deepface_available) = dom emotion_mapping.
Proof.
  rewrite dom_emotion_mapping. destruct deepface_available; [|reflexivity].
  apply set_eq. intros x. rewrite !elem_of_list_to_set.
  unfold get_available_emotions, emotions.
  rewrite !elem_of_cons, !elem_of_nil. naive_solver.
Qed.

(** X14: [get_emotion_emoji] knows exactly the emotions of the ranker's
    vocabulary: it returns the fallback emoji exactly for the labels that
    are no key of [emotion_mapping] once lower-cased; it does not depend on
    the case of the label; two labels of the vocabulary with the same emoji
    are the same label up to case. *)
Theorem get_emotion_emoji_vocabulary e :
  (get_emotion_emoji e = "🤔" ↔ emotion_mapping !! lower e = None)
  ∧ get_emotion_emoji (lower e) = get_emotion_emoji e
  ∧ (∀ e', get_emotion_emoji e' = get_emotion_emoji e →
           get_emotion_emoji e <> "🤔" → lower e' = lower e).
Proof.
  assert (Hdom : ∀ k, emotion_emoji !! k = None ↔ emotion_mapping !! k = None).
  { intros k. rewrite <- !not_elem_of_dom. by rewrite same_vocabulary. }
  unfold get_emotion_emoji. split_and!.
  - rewrite <- Hdom. destruct (emotion_emoji !! lower e) as [v|] eqn:Hv; simpl.
    + split; [|done]. intros ->. by apply emotion_emoji_not_default in Hv.
    + done.
  - by rewrite lower_idemp.
  - intros e'. destruct (emotion_emoji !! lower e) as [v|] eqn:Hv; [|done].
    destruct (emotion_emoji !! lower e') as [v'|] eqn:Hv'; simpl.
    + intros -> _. revert Hv Hv'. generalize (lower e) (lower e'). clear.
      intros k k' H%elem_of_list_to_map_2 H'%elem_of_list_to_map_2.
      repeat (apply elem_of_cons in H as [?|H];
              [simplify_eq;
               repeat (apply elem_of_cons in H' as [?|H']; [by simplify_eq|]);
               by apply elem_of_nil in H'|]).
      by apply elem_of_nil in H.
    + intros <- Hne. done.
Qed.

Lemma get_emotion_emoji_vocabulary_witness :
  lower "HAPPY" = lower "happy".
Proof.
  destruct (get_emotion_emoji_vocabulary "happy") as (_ & _ & H).
  apply (H "HAPPY"); [reflexivity|discriminate].
Defined.

(** X15: the fallback detector always succeeds with an emotion of the
    ranker's vocabulary, so [get_recommendations] ranks by score and never
    samples for it; the confidence reported is the value of that emotion in
    [all_emotions] and the largest value there; [all_emotions] has the seven
    emotions of the vocabulary as keys; the confidence is between 0.5 and
    0.8. *)
Theorem fallback_detection_label brightness contrast :
  let d := _fallback_detection brightness contrast in
  success d = true ∧ error d = None
  ∧ dom (all_emotions d) = dom emotion_mapping
  ∧ (5 # 10 <= confidence d)%Q ∧ (confidence d <= 8 # 10)%Q
  ∧ (∀ e q, all_emotions d !! e = Some q → (q <= confidence d)%Q)
  ∧ ∃ e tags,
      emotion d = Some e
      ∧ emotion_mapping !! e = Some tags
      ∧ all_emotions d !! e = Some (confidence d)
      ∧ ∀ rs C n,
          get_recommendations rs (Some C) e n
          = drop_score (head n (sort_values (products_with_scores rs tags C))).
Proof.
  intros d. unfold d, _fallback_detection.
  assert (Hcases : fallback_emotion brightness contrast
                   ∈ [("happy", 7 # 10); ("sad", 6 # 10);
                      ("surprise", 5 # 10); ("neutral", 8 # 10)]%Q).
  { unfold fallback_emotion.
    destruct (Qle_bool brightness 150); cbn [negb]; [|by left].
    destruct (Qle_bool 80 brightness); cbn [negb]; [|by right; left].
    destruct (Qle_bool contrast 50); cbn [negb];
      [do 3 right; by left|do 2 right; by left]. }
  assert (Hmax : ∀ (m : gmap string Q) (e0 : string) (c0 : Q) e q,
            m = list_to_map ((λ e, (e, (1 # 10)%Q)) <$> emotions) →
            (1 # 10 <= c0)%Q → <[e0 := c0]> m !! e = Some q → (q <= c0)%Q).
  { intros m e0 c0 e q -> Hc [[_ <-]|[_ H]]%lookup_insert_Some; [lra|].
    apply elem_of_list_to_map_2 in H.
    apply list_elem_of_fmap in H as (x & [= _ ->] & _). done. }
  destruct (fallback_emotion brightness contrast) as [e0 c0].
  cbn [success error confidence emotion all_emotions].
  assert (Hin : e0 ∈ emotions ∧ (5 # 10 <= c0)%Q ∧ (c0 <= 8 # 10)%Q
                ∧ ∃ tags, emotion_mapping !! e0 = Some tags).
  { repeat (apply elem_of_cons in Hcases as [[= -> ->]|Hcases];
      [split_and!;
         [unfold emotions; set_solver|unfold Qle; simpl; lia
         |unfold Qle; simpl; lia|by eexists]|]).
    by apply elem_of_nil in Hcases. }
  destruct Hin as (Hin & Hlo & Hhi & tags & Htags).
  split_and!; try done.
  - by apply dom_all_emotions.
  - intros e q. apply Hmax; [done|lra].
  - exists e0, tags. split_and!; try done.
    + apply lookup_insert_eq.
    + intros rs C n. apply ranked_result_eq.
      replace (lower e0) with e0; [done|].
      clear -Hin. unfold emotions in Hin.
      repeat (apply elem_of_cons in Hin as [->|Hin]; [done|]).
      by apply elem_of_nil in Hin.
Qed.

End LabelFacts.

Section VocabularyFacts.
Import PyStr Recommender Utils EmotionDetector.
Context {U : PyUnicode}.

Lemma _get_search_terms_ascii mood :
  isascii mood = true →
  Spotify._get_search_terms mood
  = default ["music"; "playlist"; "songs"]
      (Spotify.mood_keywords !! strip (lower mood)).
Proof.
  intros H. unfold Spotify._get_search_terms.
  by rewrite (str_lower_ascii mood), str_strip_ascii by (by try apply isascii_lower).
Qed.

(** X16: the playlist vocabulary misses one emotion of the ranker's
    vocabulary: among the keys of [emotion_mapping], [_get_search_terms]
    falls back to the generic terms music, playlist, songs exactly for
    "surprise" (the key of [mood_keywords] is "surprised"). Both lists of
    [get_available_emotions] are the keys of [emotion_mapping]. *)
Theorem search_terms_of_ranker_emotions e tags :
  emotion_mapping !! e = Some tags →
  (Spotify._get_search_terms e = ["music"; "playlist"; "songs"] ↔ e = "surprise")
  ∧ (Spotify.mood_keywords !! e = None ↔ e = "surprise")
  ∧ ∀ deepface_available,
      list_to_set (get_available_emotions deepface_available)
      = dom emotion_mapping.
Proof.
  intros H%elem_of_list_to_map_2. split_and!.
  - repeat (apply elem_of_cons in H as [[= -> ->]|H];
            [rewrite _get_search_terms_ascii by done; by split|]).
    by apply elem_of_nil in H.
  - repeat (apply elem_of_cons in H as [[= -> ->]|H]; [by split|]).
    by apply elem_of_nil in H.
  - apply available_emotions_vocabulary.
Qed.

End VocabularyFacts.

Lemma search_terms_of_ranker_emotions_witness :
  Spotify._get_search_terms (U := ascii_tables) "surprise"
  = ["music"; "playlist"; "songs"].
Proof.
  destruct (search_terms_of_ranker_emotions (U := ascii_tables) "surprise"
              ["unique"; "innovative"; "exciting"; "novel"; "creative"])
    as ([_ H] & _).
  - vm_compute. reflexivity.
  - apply H. reflexivity.
Defined.


(** ** The playlist adapter: further properties *)

Section MoreSpotifyFacts.
Import PyStr Spotify SpecWords.
Context {U : PyUnicode}.

(** X17: the adapter is Ready with the client [c] exactly when both
    credentials are present and not empty, the constructor returns [c] for
    them and the test search on [c] does not raise; in every other case the
    client is None. *)
Theorem _initialize_client_ready id secret connect c :
  client (_initialize_client id secret connect) = Some c ↔
  ∃ i s, id = Some i ∧ secret = Some s ∧ i <> "" ∧ s <> ""
         ∧ connect i s = Some c ∧ is_Some (search c "test" "track" 1).
Proof.
  unfold _initialize_client, truthy.
  destruct id as [i|], secret as [s|];
    try (split; [done|by intros (?&?&?&?&?)]).
  do 2 case_bool_decide; simpl;
    try (split; [done|intros (?&?&?&?&?&?&?); by simplify_eq]).
  destruct (connect i s) as [c'|] eqn:Hc;
    [|split; [done|intros (?&?&?&?&?&?&?&?); by simplify_eq]].
  destruct (search c' "test" "track" 1) as [items|] eqn:Hs; simpl.
  - split.
    + intros [= <-]. exists i, s. rewrite Hs. by eauto 10.
    + intros (?&?&?&?&?&?&?&?). by simplify_eq.
  - split; [done|]. intros (?&?&?&?&?&?&?&[? Hsome]). simplify_eq.
Qed.

(** X18: the module keeps the first recommender it builds: whatever the
    environment is at later calls, [get_spotify_recommender] returns that
    instance and leaves the global unchanged; so an adapter that came up
    Unavailable answers every later [get_playlists_by_mood] of the module
    with the empty list and no search. *)
Theorem get_spotify_recommender_once env global r global' :
  get_spotify_recommender env global = (r, global') →
  global' = Some r
  ∧ (∀ env', get_spotify_recommender env' global' = (r, global'))
  ∧ (∀ env', is_spotify_available env' global' = (is_available r, global'))
  ∧ (∀ env' mood n,
        module_get_playlists_by_mood env' global' mood n
        = (get_playlists_by_mood r mood n, global'))
  ∧ (client r = None →
     ∀ env' mood n,
       module_get_playlists_by_mood env' global' mood n = (([], []), global')).
Proof.
  intros H.
  assert (Hg : global' = Some r).
  { unfold get_spotify_recommender in H. destruct global; by simplify_eq. }
  subst global'. split_and!; try done.
  intros Hnone env' mood n. unfold module_get_playlists_by_mood. simpl.
  unfold get_playlists_by_mood. by rewrite Hnone.
Qed.

(** Every mood has at least three search terms. *)
Lemma _get_search_terms_length mood : 3 ≤ length (_get_search_terms mood).
Proof.
  unfold _get_search_terms.
  destruct (mood_keywords !! str_strip (str_lower mood)) as [terms|] eqn:H;
    simpl; [|lia].
  apply elem_of_list_to_map_2 in H.
  repeat (apply elem_of_cons in H as [[= _ ->]|H]; [simpl; lia|]).
  by apply elem_of_nil in H.
Qed.

(** X19: [_get_search_terms] always gives at least three terms, so the
    three-term cut of [get_playlists_by_mood] has exactly three; for a mood
    of ASCII text it does not depend on the case of the mood nor on white
    space around it. *)
Theorem _get_search_terms_normalizes mood :
  length (take 3 (_get_search_terms mood)) = 3
  ∧ _get_search_terms mood <> []
  ∧ (isascii mood = true →
     _get_search_terms (str_lower mood) = _get_search_terms mood
     ∧ _get_search_terms (str_strip mood) = _get_search_terms mood
     ∧ _get_search_terms (" " +:+ mood) = _get_search_terms mood).
Proof.
  pose proof (_get_search_terms_length mood) as Hlen.
  split_and!.
  - rewrite length_take. lia.
  - intros Hnil. rewrite Hnil in Hlen. simpl in Hlen. lia.
  - intros Hascii.
    rewrite (str_lower_ascii mood), (str_strip_ascii mood) by done.
    rewrite !_get_search_terms_ascii
      by (done || by apply isascii_lower || by apply isascii_strip).
    split_and!.
    + by rewrite lower_idemp.
    + by rewrite lower_strip, strip_idemp.
    + rewrite lower_app. change (lower " ") with " ".
      unfold strip. by rewrite lstrip_space.
Qed.

(** One item either raises, when it is broken, or adds its candidate, if it
    has one. *)
Lemma add_item_spec playlists item :
  (broken_item item = true ∧ ∃ e, add_item playlists item = Raised e)
  ∨ (broken_item item = false
     ∧ add_item playlists item
       = Returned (playlists ++ from_option (λ p, [p]) [] (candidate_of item))).
Proof.
  unfold candidate_of, broken_item, kept_item, add_item.
  destruct item as [p|]; [|right; by rewrite app_nil_r].
  destruct (raw_name p) as [nm|]; [|right; by rewrite app_nil_r].
  destruct (raw_external_urls p) as [urls|]; [|right; by rewrite app_nil_r].
  destruct (negb (bool_decide (nm = "")) && negb (bool_decide (urls = ∅)));
    [|right; by rewrite app_nil_r].
  destruct (urls !! "spotify") as [link|]; [|left; by eauto].
  destruct (raw_tracks p) as [| |total]; simpl; [|left; by eauto|];
    (destruct (raw_owner p) as [| |display_name]; simpl;
       [right|left; by eauto|right]); done.
Qed.

Lemma add_items_spec playlists items :
  if bool_decide (Exists (λ item, broken_item item = true) items)
  then ∃ e, add_items playlists items = Raised e
  else add_items playlists items = Returned (playlists ++ omap candidate_of items).
Proof.
  revert playlists. induction items as [|item items IH]; intros playlists.
  { cbn [add_items]. rewrite bool_decide_eq_false_2; [by rewrite app_nil_r|].
    by intros ?%Exists_nil. }
  cbn [add_items].
  destruct (add_item_spec playlists item) as [[Hb [e ->]]|[Hb ->]].
  - rewrite bool_decide_eq_true_2; [by eauto|]. by left.
  - assert (Exists (λ item, broken_item item = true) (item :: items)
            ↔ Exists (λ item, broken_item item = true) items) as Hiff.
    { rewrite Exists_cons. rewrite Hb. naive_solver. }
    rewrite (bool_decide_ext _ _ Hiff).
    specialize (IH (playlists ++ from_option (λ p, [p]) [] (candidate_of item))).
    case_bool_decide; [done|]. rewrite IH.
    f_equal. rewrite <- app_assoc. f_equal.
    cbn [omap list_omap]. by destruct (candidate_of item).
Qed.

Lemma omap_length_le {A B} (f : A → option B) (l : list A) :
  length (omap f l) ≤ length l.
Proof.
  induction l as [|x l IH]; [done|]. cbn [omap list_omap].
  destruct (f x); simpl; lia.
Qed.

Lemma elem_of_concat {A} (x : A) (ls : list (list A)) :
  x ∈ concat ls → ∃ l, l ∈ ls ∧ x ∈ l.
Proof.
  rewrite list_elem_of_In, in_concat. intros (l & Hl & Hx).
  exists l. by rewrite !list_elem_of_In.
Qed.

Lemma candidate_of_name item p : candidate_of item = Some p → name p <> "".
Proof.
  unfold candidate_of. destruct (kept_item item && _) eqn:Hk; [|done].
  apply andb_true_iff in Hk as [Hk _]. unfold kept_item in Hk.
  destruct item as [r|]; [|done].
  destruct (raw_name r) as [nm|]; [|done].
  destruct (raw_external_urls r) as [urls|]; [|done].
  destruct (bool_decide (nm = "")) eqn:Hn; [done|].
  destruct (urls !! "spotify"); [|done]. simpl. intros [= <-]. simpl.
  by apply bool_decide_eq_false in Hn.
Qed.

(** X20: [_search_playlists] gives no candidate when the search raises,
    and also when one kept item of the response is broken: it has no
    "spotify" link, or its "tracks" or its "owner" is null (the candidates
    of the other items of that response are lost with it); otherwise it
    gives the candidates of the kept items in the order of the response,
    and skips null items and items without name or without external_urls.
    No candidate has an empty name, and there are at most as many
    candidates as items. *)
Theorem _search_playlists_candidates c search_term limit :
  let result := _search_playlists c search_term limit in
  match search c search_term "playlist" limit with
  | None => result = []
  | Some items =>
      (Exists (λ item, broken_item item = true) items → result = [])
      ∧ (Forall (λ item, broken_item item = false) items →
           result = omap candidate_of items)
      ∧ length result ≤ length items
  end
  ∧ Forall (λ p, name p <> "") result.
Proof.
  intros result. unfold result, _search_playlists.
  destruct (search c search_term "playlist" limit) as [items|]; [|done].
  pose proof (add_items_spec [] items) as Hspec.
  assert (Hnames : Forall (λ p, name p <> "") (omap candidate_of items)).
  { apply Forall_forall. intros p (item & _ & Hp)%list_elem_of_omap.
    by eapply candidate_of_name. }
  case_bool_decide as Hb.
  - destruct Hspec as [e ->]. split_and!; try done.
    + intros Hall. exfalso. apply Exists_exists in Hb as (item & Hin & Hitem).
      rewrite Forall_forall in Hall. rewrite (Hall item Hin) in Hitem. done.
    + simpl. lia.
  - rewrite Hspec. simpl. split_and!; try done.
    apply omap_length_le.
Qed.

Lemma gather_spec c n terms all queries :
  ∃ k, k ≤ length terms
       ∧ (terms <> [] → 1 ≤ k)
       ∧ (gather c n terms all queries).2 = queries ++ (query_of <$> take k terms)
       ∧ (gather c n terms all queries).1
         = all ++ concat ((λ t, _search_playlists c (query_of t) 10) <$> take k terms)
       ∧ (k < length terms → n * 2 ≤ length (gather c n terms all queries).1)
       ∧ (∀ j, 0 < j < k →
            length (all ++ concat ((λ t, _search_playlists c (query_of t) 10)
                                     <$> take j terms)) < n * 2).
Proof.
  revert all queries. induction terms as [|term rest IH]; intros all queries.
  { exists 0. simpl. rewrite !app_nil_r. split_and!; try done; lia. }
  cbn [gather]. fold (query_of term).
  destruct (n * 2 <=? length (all ++ _search_playlists c (query_of term) 10)) eqn:Hstop.
  - apply Nat.leb_le in Hstop. exists 1. simpl. rewrite !app_nil_r.
    split_and!; try done; lia.
  - apply Nat.leb_gt in Hstop.
    destruct (IH (all ++ _search_playlists c (query_of term) 10)
                 (queries ++ [query_of term]))
      as (k & Hk & _ & Hq & Ha & Hearly & Hmin).
    exists (S k). simpl. split_and!.
    + lia.
    + lia.
    + by rewrite Hq, <- app_assoc.
    + by rewrite Ha, <- app_assoc.
    + intros Hlt. apply Hearly. lia.
    + intros [|j] Hj; [lia|]. simpl. destruct j as [|j].
      * simpl. by rewrite app_nil_r.
      * rewrite app_assoc. apply Hmin. lia.
Qed.

(** The result is selected from the candidates of the searches sent. *)
Lemma get_playlists_by_mood_found c mood n :
  ∃ ts, get_playlists_by_mood {| client := Some c |} mood n
        = (select n (concat ((λ t, _search_playlists c (query_of t) 10) <$> ts)),
           query_of <$> ts).
Proof.
  unfold get_playlists_by_mood. cbn [client].
  set (terms := take 3 _).
  destruct (gather_spec c n terms [] []) as (k & _ & _ & Hq & Ha & _).
  exists (take k terms).
  destruct (gather c n terms [] []) as [all queries]. simpl in *. by subst.
Qed.

(** X21: a Ready adapter sends between one and three searches, for the
    first search terms of the mood in their order, each with " playlist"
    appended (None and the empty mood search as "music"); it stops before
    the third search only when twice [n_playlists] raw candidates are
    gathered, and goes on as long as fewer are; the result is selected from
    the candidates of exactly the searches sent. For [n_playlists = 0] it
    sends exactly one search and returns the empty list. *)
Theorem get_playlists_by_mood_searches c mood n :
  let terms := take 3 (_get_search_terms (searched_mood mood)) in
  let found (ts : list string) :=
    concat ((λ t, _search_playlists c (query_of t) 10) <$> ts) in
  ∃ k, 1 ≤ k ≤ 3
       ∧ get_playlists_by_mood {| client := Some c |} mood n
         = (select n (found (take k terms)), query_of <$> take k terms)
       ∧ (k < 3 → n * 2 ≤ length (found (take k terms)))
       ∧ (∀ j, 0 < j < k → length (found (take j terms)) < n * 2)
       ∧ (n = 0 → k = 1 ∧ select n (found (take k terms)) = []).
Proof.
  intros terms found.
  assert (Hlen : length terms = 3).
  { unfold terms. rewrite length_take.
    pose proof (_get_search_terms_length (searched_mood mood)). lia. }
  destruct (gather_spec c n terms [] []) as (k & Hk & H1 & Hq & Ha & Hearly & Hmin).
  simpl in Hq, Ha. unfold found.
  exists k. split_and!.
  - apply H1. intros Hnil. rewrite Hnil in Hlen. done.
  - lia.
  - unfold get_playlists_by_mood. cbn [client]. fold (searched_mood mood). fold terms.
    destruct (gather c n terms [] []) as [all queries]. simpl in *. by subst.
  - intros Hlt. rewrite <- Ha. apply Hearly. lia.
  - intros j Hj. by apply (Hmin j).
  - intros ->. split.
    + destruct (decide (k = 1)) as [|Hk1]; [done|]. exfalso.
      assert (1 ≤ k) by (apply H1; intros Hnil; by rewrite Hnil in Hlen).
      specialize (Hmin 1). simpl in Hmin. lia.
    + apply nil_length_inv. pose proof (select_length 0 (concat
        ((λ t, _search_playlists c (query_of t) 10) <$> take k terms))). lia.
Qed.

(** X22: a Ready adapter returns at most [n_playlists] playlists; each has
    a name of more than 3 characters (code points) and an integer track
    count above 10, no two have the same name up to case, and each is a
    candidate of one of the queries sent. *)
Theorem get_playlists_by_mood_result c mood n :
  let '(result, queries) := get_playlists_by_mood {| client := Some c |} mood n in
  length result ≤ n
  ∧ Forall (λ p, 3 < len (name p)
                 ∧ ∃ total, total_tracks p = Some total ∧ (10 < total)%Z) result
  ∧ NoDup ((λ p, str_lower (name p)) <$> result)
  ∧ Forall (λ p, ∃ q, q ∈ queries ∧ p ∈ _search_playlists c q 10) result.
Proof.
  destruct (get_playlists_by_mood_found c mood n) as (terms & ->).
  set (all := concat _).
  split_and!.
  - apply select_length.
  - apply Forall_forall. intros p Hp. apply quality_ok_true.
    by eapply select_quality.
  - apply select_NoDup.
  - apply Forall_forall. intros p Hp.
    assert (Hin : p ∈ all).
    { eapply elem_of_submseteq; [exact Hp|].
      apply sublist_submseteq, select_sublist. }
    unfold all in Hin. apply elem_of_concat in Hin as (l & Hl & Hp').
    apply list_elem_of_fmap in Hl as (t & -> & Ht).
    exists (query_of t). split; [by apply list_elem_of_fmap_2|done].
Qed.

End MoreSpotifyFacts.

Lemma get_spotify_recommender_once_witness :
  Spotify.module_get_playlists_by_mood (U := ascii_tables)
    (Spotify.mkEnv (Some "id") (Some "secret") (λ _ _, Some (client_returning [])))
    (Some {| Spotify.client := None |}) (Some "happy") 5
  = (([], []), Some {| Spotify.client := None |}).
Proof.
  destruct (get_spotify_recommender_once (U := ascii_tables)
              (Spotify.mkEnv None None (λ _ _, None)) None
              {| Spotify.client := None |} (Some {| Spotify.client := None |}))
    as (_ & _ & _ & _ & H); [reflexivity|].
  apply H. reflexivity.
Defined.
